(** * Saving and loading a fully connected network (intro-to-pytorch, part 6)

    Shallow embedding of the checkpoint cells of the notebook
    [src/unnamed/part_000]:
    - the save cell (lines 338-345), which builds the dictionary
      [checkpoint] and writes it with [torch.save];
    - [load_checkpoint] (lines 360-367), which rebuilds an
      [fc_model.Network] from the recorded sizes and calls
      [model.load_state_dict];
    - the direct [torch.save(model.state_dict())] /
      [model.load_state_dict(state_dict)] cells (lines 237, 261, 289, 319-324).

    The Python heap is modelled explicitly: a parameter of a module is a
    location holding a tensor, [state_dict()] returns the locations (the
    tensors it returns share storage with the parameters), [torch.save]
    reads them through the heap, and [load_state_dict] writes into them.
    A raised exception keeps the heap effects performed before it. *)

From stdpp Require Import base gmap strings pretty list.
From Stdlib Require Import Ascii.

Set Warnings "-register-all".

(* ------------------------------------------------------------------ *)
(** ** Data *)

(** A tensor: its shape ([torch.Size]) and its elements, each one the
    bit pattern of a float. *)
Record Tensor := mkTensor { shape : list nat; data : list Z }.

#[global] Instance Tensor_inhabited : Inhabited Tensor :=
  populate (mkTensor [] []).

#[global] Instance Tensor_eq_dec : EqDecision Tensor.
Proof. solve_decision. Defined.

(** [nn.Linear(in_features, out_features)]: the two parameters are heap
    locations. *)
Record Linear := mkLinear {
  in_features : nat;
  out_features : nat;
  weight : nat;
  bias : nat
}.

(** [fc_model.Network]: [self.hidden_layers] (an [nn.ModuleList]) and
    [self.output] (dropout has no parameters). *)
Record Network := mkNetwork {
  hidden_layers : list Linear;
  output : Linear
}.

(** A Python value as held in memory before [torch.save]: the tensors of
    a state dict are references into the heap. *)
Inductive MVal :=
| MInt (n : nat)
| MIntList (l : list nat)
| MRef (l : nat)
| MDict (kvs : list (string * MVal)).

(** A value as written by [torch.save] and read back by [torch.load]:
    tensors are stored by value, and the tensors [torch.load] returns are
    fresh, so they are values here too. *)
Inductive FVal :=
| FInt (n : nat)
| FIntList (l : list nat)
| FTensor (t : Tensor)
| FDict (kvs : list (string * FVal)).

(** The messages collected by [Module.load_state_dict] before it raises
    [RuntimeError]. *)
Inductive LoadMsg :=
| MissingKeys (ks : list string)
| UnexpectedKeys (ks : list string)
| SizeMismatch (k : string) (ckpt_shape model_shape : list nat)
| NotATensor (k : string).

Inductive Exc :=
| KeyError (k : string)
| TypeError
| FileNotFoundError (path : string)
| RuntimeError (msgs : list LoadMsg).

(** A Python object returned to the caller. *)
Inductive PyObj :=
| PyNetwork (m : Network)
| PyTuple (xs : list PyObj)
| PyData (v : FVal).

(** The interpreter state: the heap of tensors, the next free location and
    the files on disk. *)
Record St := mkSt {
  heap : gmap nat Tensor;
  next_loc : nat;
  files : gmap string FVal
}.

Definition set_heap (h : gmap nat Tensor) (st : St) : St :=
  mkSt h (next_loc st) (files st).

(* ------------------------------------------------------------------ *)
(** ** Statements that may raise *)

Definition PyM (A : Type) : Type := St -> (Exc + A) * St.

#[global] Instance PyM_ret : MRet PyM := fun A a st => (inr a, st).
#[global] Instance PyM_bind : MBind PyM := fun A B f m st =>
  match m st with
  | (inl e, st') => (inl e, st')
  | (inr a, st') => f a st'
  end.

Definition raise {A} (e : Exc) : PyM A := fun st => (inl e, st).

(** Running a statement and keeping its exception, if any, as a value (a
    notebook cell that raises shows the error and keeps the state). *)
Definition catch {A} (m : PyM A) : PyM (Exc + A) := fun st =>
  let '(r, st') := m st in (inr r, st').

(** Dictionary lookup on an association list (first binding wins; the
    dictionaries below have distinct keys). *)
Fixpoint assoc {V} (k : string) (kvs : list (string * V)) : option V :=
  match kvs with
  | [] => None
  | (k', v) :: r => if String.eqb k k' then Some v else assoc k r
  end.

(** [d[k]] *)
Definition getitem (d : FVal) (k : string) : PyM FVal :=
  match d with
  | FDict kvs =>
      match assoc k kvs with
      | Some v => mret v
      | None => raise (KeyError k)
      end
  | _ => raise TypeError
  end.

(* ------------------------------------------------------------------ *)
(** ** Module construction *)

Section Construction.

(** The initial values [nn.Linear.reset_parameters] draws at random: an
    arbitrary function of the allocated location and the shape. *)
Variable init_data : nat -> list nat -> list Z.

(** [torch.Tensor(size)] registered as a parameter. *)
Definition alloc (s : list nat) : PyM nat := fun st =>
  let l := next_loc st in
  (inr l, mkSt (<[l := mkTensor s (init_data l s)]> (heap st)) (S l) (files st)).

(** [nn.Linear(in_features, out_features)]: [weight] of shape
    [[out_features, in_features]], then [bias] of shape [[out_features]]. *)
Definition nn_Linear (i o : nat) : PyM Linear :=
  w ← alloc [o; i];
  b ← alloc [o];
  mret (mkLinear i o w b).

Fixpoint hidden_chain (i : nat) (hs : list nat) : PyM (list Linear) :=
  match hs with
  | [] => mret []
  | h :: r =>
      l ← nn_Linear i h;
      ls ← hidden_chain h r;
      mret (l :: ls)
  end.

(** Modelled from the spec: [fc_model.Network(input_size, output_size,
    hidden_layers)], whose module [fc_model] is imported by the notebook
    but not part of the sources. Following the spec, the layer shapes are
    input_size -> first hidden size -> ... -> output_size, in the recorded
    order; with no hidden size the output layer maps input_size to
    output_size directly. The printed model (lines 203-211, 379-387) and
    the state dict keys (lines 215, 256) agree with this layout. *)
Definition Network_new (input_size output_size : nat) (hs : list nat)
  : PyM Network :=
  hl ← hidden_chain input_size hs;
  o ← nn_Linear (List.last hs input_size) output_size;
  mret (mkNetwork hl o).

End Construction.

(* ------------------------------------------------------------------ *)
(** ** [state_dict] *)

Definition linear_params (prefix : string) (l : Linear) : list (string * nat) :=
  [(prefix +:+ "weight", weight l); (prefix +:+ "bias", bias l)].

Definition hidden_prefix (i : nat) : string :=
  "hidden_layers." +:+ pretty i +:+ ".".

Fixpoint hidden_params (i : nat) (ls : list Linear) : list (string * nat) :=
  match ls with
  | [] => []
  | l :: r => linear_params (hidden_prefix i) l ++ hidden_params (S i) r
  end.

(** [model.state_dict()]: the parameters in registration order, each
    paired with the location of its storage. *)
Definition state_dict (m : Network) : list (string * nat) :=
  hidden_params 0 (hidden_layers m) ++ linear_params "output." (output m).

(** The state dict as a Python object: an [OrderedDict] of tensors that
    share storage with the parameters. *)
Definition state_dict_obj (m : Network) : MVal :=
  MDict (map (fun '(k, l) => (k, MRef l)) (state_dict m)).

(** Reading a module's named parameters through the heap. *)
Definition read_params (h : gmap nat Tensor) (m : Network) : list (string * Tensor) :=
  map (fun '(k, l) => (k, h !!! l)) (state_dict m).

(* ------------------------------------------------------------------ *)
(** ** [torch.save] / [torch.load] *)

Fixpoint serialize (h : gmap nat Tensor) (v : MVal) : FVal :=
  match v with
  | MInt n => FInt n
  | MIntList l => FIntList l
  | MRef l => FTensor (h !!! l)
  | MDict kvs =>
      FDict ((fix go (kvs : list (string * MVal)) :=
                match kvs with
                | [] => []
                | (k, v) :: r => (k, serialize h v) :: go r
                end) kvs)
  end.

(** [torch.save(obj, path)]: the tensors are written by value. *)
Definition torch_save (obj : MVal) (path : string) : PyM unit := fun st =>
  (inr tt, mkSt (heap st) (next_loc st) (<[path := serialize (heap st) obj]> (files st))).

(** [torch.load(path)]. *)
Definition torch_load (path : string) : PyM FVal := fun st =>
  match files st !! path with
  | Some v => (inr v, st)
  | None => (inl (FileNotFoundError path), st)
  end.

(* ------------------------------------------------------------------ *)
(** ** [Module.load_state_dict(state_dict, strict=True)] *)

(** The walk of [_load_from_state_dict] over the module's parameters, in
    registration order: a key absent from [sd] is a missing key; a value
    that is not a tensor, or whose shape differs from the parameter's, is
    an error message and the parameter is left alone; otherwise the
    parameter is overwritten in place ([param.copy_(input_param)]) at
    once, before any error is raised. *)
Fixpoint load_params (sd : list (string * FVal)) (ps : list (string * nat))
    (h : gmap nat Tensor) : gmap nat Tensor * list string * list LoadMsg :=
  match ps with
  | [] => (h, [], [])
  | (k, l) :: r =>
      match assoc k sd with
      | None =>
          let '(h', miss, errs) := load_params sd r h in (h', k :: miss, errs)
      | Some (FTensor t) =>
          if decide (shape t = shape (h !!! l))
          then load_params sd r (<[l := mkTensor (shape (h !!! l)) (data t)]> h)
          else let '(h', miss, errs) := load_params sd r h in
               (h', miss, SizeMismatch k (shape t) (shape (h !!! l)) :: errs)
      | Some _ =>
          let '(h', miss, errs) := load_params sd r h in
          (h', miss, NotATensor k :: errs)
      end
  end.

(** Keys of [sd] that name no parameter of the module. *)
Definition unexpected_keys (sd : list (string * FVal)) (ps : list (string * nat))
  : list string :=
  List.filter (fun k => negb (existsb (String.eqb k) (map fst ps))) (map fst sd).

Definition load_state_dict (m : Network) (sdv : FVal) : PyM unit :=
  match sdv with
  | FDict sd => fun st =>
      let '(h', miss, errs) := load_params sd (state_dict m) (heap st) in
      let unexp := unexpected_keys sd (state_dict m) in
      let msgs := (if miss then [] else [MissingKeys miss])
                  ++ (if unexp then [] else [UnexpectedKeys unexp])
                  ++ errs in
      match msgs with
      | [] => (inr tt, set_heap h' st)
      | _ => (inl (RuntimeError msgs), set_heap h' st)
      end
  | _ => raise TypeError
  end.

(* ------------------------------------------------------------------ *)
(** ** The checkpoint cells *)

(** [fc_model.Network(a, b, c)] called on values read from a file. *)
Definition fc_model_Network (init_data : nat -> list nat -> list Z)
    (a b c : FVal) : PyM Network :=
  match a, b, c with
  | FInt i, FInt o, FIntList hs => Network_new init_data i o hs
  | _, _, _ => raise TypeError
  end.

(** Lines 339-342: the dictionary [checkpoint]. The sizes 784 and 10 are
    literals of the cell; the hidden sizes are read off the model. *)
Definition checkpoint_dict (model : Network) : MVal :=
  MDict [("input_size", MInt 784);
         ("output_size", MInt 10);
         ("hidden_layers", MIntList (map out_features (hidden_layers model)));
         ("state_dict", state_dict_obj model)].

(** Lines 338-344: build [checkpoint], then
    [torch.save(checkpoint, 'checkpoint.pth')]; the dictionary stays bound
    to [checkpoint]. *)
Definition save_checkpoint (model : Network) : PyM MVal :=
  let checkpoint := checkpoint_dict model in
  torch_save checkpoint "checkpoint.pth";;
  mret checkpoint.

(** Lines 360-367: [load_checkpoint(filepath)]. *)
Definition load_checkpoint (init_data : nat -> list nat -> list Z)
    (filepath : string) : PyM PyObj :=
  checkpoint ← torch_load filepath;
  a ← getitem checkpoint "input_size";
  b ← getitem checkpoint "output_size";
  c ← getitem checkpoint "hidden_layers";
  model ← fc_model_Network init_data a b c;
  sd ← getitem checkpoint "state_dict";
  load_state_dict model sd;;
  mret (PyNetwork model).

(** Lines 237, 261, 321-323: [torch.save(model.state_dict(),
    'checkpoint.pth')], [state_dict = torch.load('checkpoint.pth')], a
    second model [fc_model.Network(784, 10, hs')] and
    [model.load_state_dict(state_dict)]. Returns the second model, and the
    outcome of the last call. *)
Definition reload_into_new_model (init_data : nat -> list nat -> list Z)
    (model : Network) (hs' : list nat) : PyM (Network * (Exc + unit)) :=
  torch_save (state_dict_obj model) "checkpoint.pth";;
  state_dict ← torch_load "checkpoint.pth";
  model' ← Network_new init_data 784 10 hs';
  r ← catch (load_state_dict model' state_dict);
  mret (model', r).

(** Lines 237, 261, 289: [torch.save(model.state_dict(), 'checkpoint.pth')],
    [state_dict = torch.load('checkpoint.pth')] and
    [model.load_state_dict(state_dict)] on the model that was saved. *)
Definition reload_same_model (model : Network) : PyM unit :=
  torch_save (state_dict_obj model) "checkpoint.pth";;
  state_dict ← torch_load "checkpoint.pth";
  load_state_dict model state_dict.

Definition empty_st : St := mkSt ∅ 0 ∅.

(** Random initial values stand-in used in the examples. *)
Definition zero_init : nat -> list nat -> list Z := fun _ _ => [].

(* ------------------------------------------------------------------ *)
(** ** The layout [Network_new] produces *)

(** Parameter shapes of [Network(i, o, hs)], in registration order. *)
Fixpoint hidden_shapes (i : nat) (hs : list nat) : list (list nat) :=
  match hs with
  | [] => []
  | h :: r => [h; i] :: [h] :: hidden_shapes h r
  end.

Definition param_shapes (i o : nat) (hs : list nat) : list (list nat) :=
  hidden_shapes i hs ++ [[o; List.last hs i]; [o]].

Fixpoint hidden_keys (j k : nat) : list string :=
  match k with
  | 0 => []
  | S k' => [hidden_prefix j +:+ "weight"; hidden_prefix j +:+ "bias"]
            ++ hidden_keys (S j) k'
  end.

(** Parameter names of a network with [k] hidden layers. *)
Definition param_keys (k : nat) : list string :=
  hidden_keys 0 k ++ ["output.weight"; "output.bias"].

Fixpoint hidden_at (n i : nat) (hs : list nat) : list Linear :=
  match hs with
  | [] => []
  | h :: r => mkLinear i h n (S n) :: hidden_at (S (S n)) h r
  end.

(** The network [Network_new] builds when the next free location is [n]. *)
Definition net_at (n i o : nat) (hs : list nat) : Network :=
  mkNetwork (hidden_at n i hs)
    (mkLinear (List.last hs i) o (n + 2 * length hs) (S (n + 2 * length hs))).

Fixpoint ins_seq (init_data : nat -> list nat -> list Z) (n : nat)
    (ss : list (list nat)) (h : gmap nat Tensor) : gmap nat Tensor :=
  match ss with
  | [] => h
  | s :: r => ins_seq init_data (S n) r (<[n := mkTensor s (init_data n s)]> h)
  end.

Ltac py_unfold :=
  unfold Network_new, nn_Linear, alloc, catch, raise in *;
  unfold mbind, PyM_bind, mret, PyM_ret in *.

Lemma last_cons_shift (h i : nat) (r : list nat) :
  List.last (h :: r) i = List.last r h.
Proof.
  revert h i. induction r as [|x r IH]; intros h i; [done|].
  change (List.last (x :: r) i = List.last (x :: r) h).
  rewrite !IH. done.
Qed.

Lemma hidden_chain_spec init i hs st :
  hidden_chain init i hs st =
  (inr (hidden_at (next_loc st) i hs),
   mkSt (ins_seq init (next_loc st) (hidden_shapes i hs) (heap st))
        (next_loc st + 2 * length hs) (files st)).
Proof.
  revert i st. induction hs as [|h r IH]; intros i [hp n fs].
  - cbn. rewrite Nat.add_0_r. reflexivity.
  - cbn -[Nat.mul]. py_unfold.
    cbn -[Nat.mul]. rewrite IH. cbn -[Nat.mul].
    f_equal. f_equal. lia.
Qed.

Lemma ins_seq_app init n a b h :
  ins_seq init n (a ++ b) h = ins_seq init (n + length a) b (ins_seq init n a h).
Proof.
  revert n h. induction a as [|s a IH]; intros n h; cbn.
  - by rewrite Nat.add_0_r.
  - rewrite IH. f_equal. lia.
Qed.

Lemma Network_new_spec init i o hs st :
  Network_new init i o hs st =
  (inr (net_at (next_loc st) i o hs),
   mkSt (ins_seq init (next_loc st) (param_shapes i o hs) (heap st))
        (next_loc st + length (param_shapes i o hs)) (files st)).
Proof.
  unfold Network_new, mbind, PyM_bind. rewrite hidden_chain_spec.
  py_unfold. cbn -[Nat.mul].
  unfold param_shapes. rewrite ins_seq_app.
  assert (length (hidden_shapes i hs) = 2 * length hs) as Hl.
  { revert i. induction hs as [|h r IH]; intros i; cbn -[Nat.mul]; [done|].
    rewrite IH. lia. }
  rewrite Hl, length_app, Hl. cbn -[Nat.mul].
  f_equal. f_equal. lia.
Qed.

Lemma hidden_params_at_keys j n i hs :
  map fst (hidden_params j (hidden_at n i hs)) = hidden_keys j (length hs).
Proof.
  revert j n i. induction hs as [|h r IH]; intros j n i; cbn; [done|].
  by rewrite IH.
Qed.

Lemma hidden_params_at_locs j n i hs :
  map snd (hidden_params j (hidden_at n i hs)) = seq n (2 * length hs).
Proof.
  revert j n i. induction hs as [|h r IH]; intros j n i; cbn -[Nat.mul]; [done|].
  rewrite IH. replace (2 * S (length r)) with (S (S (2 * length r))) by lia.
  done.
Qed.

Lemma state_dict_keys n i o hs :
  map fst (state_dict (net_at n i o hs)) = param_keys (length hs).
Proof.
  unfold state_dict, param_keys. cbn. rewrite map_app, hidden_params_at_keys.
  done.
Qed.

Lemma state_dict_locs n i o hs :
  map snd (state_dict (net_at n i o hs)) = seq n (2 * length hs + 2).
Proof.
  unfold state_dict. cbn -[Nat.mul]. rewrite map_app, hidden_params_at_locs.
  rewrite seq_app. cbn -[Nat.mul]. repeat f_equal; lia.
Qed.

Lemma length_param_shapes i o hs :
  length (param_shapes i o hs) = 2 * length hs + 2.
Proof.
  unfold param_shapes. rewrite length_app. cbn -[Nat.mul].
  enough (∀ i, length (hidden_shapes i hs) = 2 * length hs) as -> by lia.
  induction hs as [|h r IH]; intros i'; cbn -[Nat.mul]; [done|].
  rewrite IH. lia.
Qed.

Lemma length_param_keys k : length (param_keys k) = 2 * k + 2.
Proof.
  unfold param_keys. rewrite length_app. cbn -[Nat.mul].
  enough (∀ j, length (hidden_keys j k) = 2 * k) as -> by lia.
  induction k as [|k IH]; intros j; cbn -[Nat.mul]; [done|].
  rewrite IH. lia.
Qed.

Lemma ins_seq_lookup_lt init n ss h l :
  l < n -> ins_seq init n ss h !! l = h !! l.
Proof.
  revert n h. induction ss as [|s r IH]; intros n h Hl; cbn; [done|].
  rewrite IH by lia. rewrite lookup_insert_ne by lia. done.
Qed.

Lemma ins_seq_shapes init n ss h :
  map (fun l => shape (ins_seq init n ss h !!! l)) (seq n (length ss)) = ss.
Proof.
  revert n h. induction ss as [|s r IH]; intros n h; cbn; [done|].
  rewrite IH. f_equal.
  unfold lookup_total, map_lookup_total.
  rewrite ins_seq_lookup_lt by lia. rewrite lookup_insert_eq. done.
Qed.

Lemma combine_fst_snd {A B} (xs : list (A * B)) :
  combine (map fst xs) (map snd xs) = xs.
Proof. induction xs as [|[a b] xs IH]; cbn; [done|]. by rewrite IH. Qed.

Lemma map_combine_snd {A B C} (g : B -> C) (ks : list A) (ls : list B) :
  map (fun '(k, l) => (k, g l)) (combine ks ls) = combine ks (map g ls).
Proof.
  revert ls. induction ks as [|k ks IH]; intros [|l ls]; cbn; [done..|].
  by rewrite IH.
Qed.

(** Right after construction, each parameter name carries the shape the
    layer sizes give it. *)
Definition key_shapes (i o : nat) (hs : list nat) : list (string * list nat) :=
  combine (param_keys (length hs)) (param_shapes i o hs).

Lemma Network_new_key_shapes init i o hs st N st' :
  Network_new init i o hs st = (inr N, st') ->
  map (fun '(k, l) => (k, shape (heap st' !!! l))) (state_dict N)
  = key_shapes i o hs.
Proof.
  rewrite Network_new_spec. intros [= <- <-]. cbn [heap].
  rewrite <- (combine_fst_snd (state_dict _)).
  rewrite map_combine_snd, state_dict_keys, state_dict_locs.
  rewrite <- (length_param_shapes i o hs), ins_seq_shapes. done.
Qed.

(* ------------------------------------------------------------------ *)
(** ** Parameter names are distinct *)

Fixpoint dotfree (s : string) : Prop :=
  match s with
  | EmptyString => True
  | String c r => c ≠ "."%char ∧ dotfree r
  end.

Lemma pretty_N_go_dotfree x s : dotfree s -> dotfree (pretty_N_go x s).
Proof.
  revert s. induction (N.lt_wf_0 x) as [x _ IH]; intros s Hs.
  destruct (decide (x = 0)%N) as [->|Hx]; [by rewrite pretty_N_go_0|].
  rewrite pretty_N_go_step by lia. apply IH.
  - apply N.div_lt; lia.
  - split; [|done]. unfold pretty_N_char. by repeat case_match.
Qed.

Lemma pretty_nat_dotfree (n : nat) : dotfree (pretty n).
Proof.
  change (pretty n) with (pretty (N.of_nat n)). unfold pretty, pretty_N.
  destruct (decide _).
  - cbn. split; [done|]. done.
  - by apply pretty_N_go_dotfree.
Qed.

Lemma dot_split a b s s' :
  dotfree a -> dotfree b ->
  a +:+ String "." s = b +:+ String "." s' -> a = b ∧ s = s'.
Proof.
  revert b. induction a as [|c a IH]; intros [|c' b]; cbn.
  - intros _ _ H. by injection H.
  - intros _ [Hc _] H. injection H as Heq _. congruence.
  - intros [Hc _] _ H. injection H as Heq _. congruence.
  - intros [_ Ha] [_ Hb] H. injection H as -> H.
    destruct (IH b Ha Hb H) as [-> ->]. done.
Qed.

Lemma str_app_assoc a b c : (a +:+ b) +:+ c = a +:+ (b +:+ c).
Proof.
  induction a as [|x a IH]; [done|].
  change (String x ((a +:+ b) +:+ c) = String x (a +:+ (b +:+ c))).
  by rewrite IH.
Qed.

Lemma hidden_key_inj j j' s s' :
  hidden_prefix j +:+ s = hidden_prefix j' +:+ s' -> j = j' ∧ s = s'.
Proof.
  unfold hidden_prefix. rewrite !str_app_assoc. intros H.
  apply (inj (String.app _)) in H. 
  destruct (dot_split _ _ _ _ (pretty_nat_dotfree j) (pretty_nat_dotfree j') H)
    as [Hj ->].
  split; [|done]. by apply (inj pretty).
Qed.

Lemma elem_of_hidden_keys x j k :
  x ∈ hidden_keys j k ->
  ∃ j' s, j ≤ j' < j + k ∧ (s = "weight" ∨ s = "bias") ∧ x = hidden_prefix j' +:+ s.
Proof.
  revert j. induction k as [|k IH]; intros j; cbn; [by rewrite elem_of_nil|].
  rewrite !elem_of_cons. intros [->|[->|Hx]].
  - exists j, "weight". split; [lia|]. auto.
  - exists j, "bias". split; [lia|]. auto.
  - destruct (IH (S j) Hx) as (j' & s & ? & ? & ->). exists j', s.
    split; [lia|]. auto.
Qed.

Lemma hidden_keys_NoDup j k : NoDup (hidden_keys j k).
Proof.
  revert j. induction k as [|k IH]; intros j; cbn; [constructor|].
  assert (∀ s, s = "weight" ∨ s = "bias" -> hidden_prefix j +:+ s ∉ hidden_keys (S j) k)
    as Hnot.
  { intros s Hs Hin. apply elem_of_hidden_keys in Hin as (j' & s' & ? & _ & Heq).
    apply hidden_key_inj in Heq as [-> _]. lia. }
  constructor.
  - rewrite elem_of_cons. intros [Heq|Hin].
    + apply hidden_key_inj in Heq as [_ Heq]. discriminate.
    + by apply (Hnot "weight"); [left|].
  - constructor; [|apply IH]. apply (Hnot "bias"). by right.
Qed.

Lemma param_keys_NoDup k : NoDup (param_keys k).
Proof.
  unfold param_keys. apply NoDup_app. split; [apply hidden_keys_NoDup|].
  split.
  - intros x Hx. apply elem_of_hidden_keys in Hx as (j' & s & _ & _ & ->).
    unfold hidden_prefix. cbn.
    rewrite !elem_of_cons, elem_of_nil. intros [H|[H|[]]]; inversion H.
  - constructor; [|constructor; [|constructor]].
    + rewrite elem_of_cons, elem_of_nil. intros [H|[]]. discriminate.
    + apply not_elem_of_nil.
Qed.

(* ------------------------------------------------------------------ *)
(** ** Reasoning about statements *)

Lemma bind_ok {A B} (m : PyM A) (f : A -> PyM B) st a st' :
  m st = (inr a, st') -> (m ≫= f) st = f a st'.
Proof. intros H. unfold mbind, PyM_bind. by rewrite H. Qed.

Lemma bind_err {A B} (m : PyM A) (f : A -> PyM B) st e st' :
  m st = (inl e, st') -> (m ≫= f) st = (inl e, st').
Proof. intros H. unfold mbind, PyM_bind. by rewrite H. Qed.

Lemma assoc_In {V} (xs : list (string * V)) k v :
  NoDup (map fst xs) -> In (k, v) xs -> assoc k xs = Some v.
Proof.
  induction xs as [|[k' v'] xs IH]; cbn; [done|].
  intros Hnd [Heq|Hin]; inversion Hnd as [|? ? Hnin Hnd']; subst.
  - injection Heq as -> ->. by rewrite String.eqb_refl.
  - destruct (String.eqb_spec k k') as [->|]; [|by apply IH].
    exfalso. apply Hnin. apply list_elem_of_In, in_map_iff. by exists (k', v).
Qed.

Lemma In_NoDup_fun {A B} (xs : list (A * B)) k a b :
  NoDup (map fst xs) -> In (k, a) xs -> In (k, b) xs -> a = b.
Proof.
  induction xs as [|[k' c] xs IH]; cbn; [done|].
  intros Hnd Ha Hb; inversion Hnd as [|? ? Hnin Hnd']; subst.
  destruct Ha as [Ha|Ha], Hb as [Hb|Hb]; simplify_eq; auto.
  - exfalso. apply Hnin. apply list_elem_of_In, in_map_iff. by exists (k, b).
  - exfalso. apply Hnin. apply list_elem_of_In, in_map_iff. by exists (k, a).
Qed.

Lemma map_pair_eq {A B} (xs : list (string * A)) (ys : list (string * B))
    (g : A -> B) (f : string -> B) :
  map fst xs = map fst ys ->
  (∀ k a, In (k, a) xs -> g a = f k) ->
  (∀ k b, In (k, b) ys -> f k = b) ->
  map (fun '(k, a) => (k, g a)) xs = ys.
Proof.
  revert ys. induction xs as [|[k a] xs IH]; intros [|[k' b] ys]; cbn;
    try discriminate; [done|].
  intros Hk Hx Hy. injection Hk as <- Hk.
  rewrite (Hx k a (or_introl eq_refl)), (Hy k b (or_introl eq_refl)).
  f_equal. apply IH; auto.
Qed.

(** The [_load_from_state_dict] walk when every parameter finds a tensor
    of its own shape: nothing is reported and each parameter ends up
    holding the stored tensor. *)
Lemma load_params_ok sd ps h :
  NoDup (map snd ps) ->
  Forall (fun '(k, l) => ∃ t, assoc k sd = Some (FTensor t) ∧ shape t = shape (h !!! l)) ps ->
  ∃ h', load_params sd ps h = (h', [], []) ∧
        Forall (fun '(k, l) => assoc k sd = Some (FTensor (h' !!! l))) ps ∧
        (∀ l, l ∉ map snd ps -> h' !! l = h !! l).
Proof.
  revert h. induction ps as [|[k l] ps IH]; intros h Hnd Hall; cbn.
  - exists h. split; [done|]. split; [constructor|done].
  - inversion Hnd as [|? ? Hnin Hnd']; subst.
    inversion Hall as [|? ? Hhd Hall']; subst.
    destruct Hhd as [t [Ht Hs]].
    rewrite Ht. rewrite decide_True by done.
    set (h1 := <[l := mkTensor (shape (h !!! l)) (data t)]> h).
    destruct (IH h1 Hnd') as (h' & Hload & Hread & Hframe).
    { apply Forall_forall. intros [k' l'] Hin'.
      rewrite Forall_forall in Hall'. destruct (Hall' _ Hin') as [t' [Ht' Hs']].
      exists t'. split; [done|]. rewrite Hs'. unfold h1.
      rewrite lookup_total_insert_ne; [done|].
      intros ->. apply Hnin. apply list_elem_of_In, in_map_iff.
      exists (k', l'). split; [done|]. by apply list_elem_of_In. }
    exists h'. split; [done|]. split.
    + constructor; [|exact Hread].
      unfold lookup_total, map_lookup_total. rewrite (Hframe l Hnin).
      unfold h1. rewrite lookup_insert_eq. cbn. rewrite Ht.
      destruct t as [ts td]. cbn in Hs. by subst.
    + intros l0 Hl0. rewrite Hframe.
      * unfold h1. rewrite lookup_insert_ne; [done|]. intros ->.
        apply Hl0. cbn. apply elem_of_cons. by left.
      * intros Hin. apply Hl0. cbn. apply elem_of_cons. by right.
Qed.

Lemma unexpected_keys_nil sd ps :
  (∀ k, In k (map fst sd) -> In k (map fst ps)) -> unexpected_keys sd ps = [].
Proof.
  unfold unexpected_keys. induction (map fst sd) as [|k ks IH]; intros Hin; cbn; [done|].
  assert (existsb (String.eqb k) (map fst ps) = true) as ->.
  { apply existsb_exists. exists k. split; [apply Hin; by left|].
    apply String.eqb_refl. }
  cbn. apply IH. intros k' Hk'. apply Hin. by right.
Qed.

Lemma load_state_dict_ok m sd st :
  NoDup (map snd (state_dict m)) ->
  (∀ k, In k (map fst sd) -> In k (map fst (state_dict m))) ->
  Forall (fun '(k, l) => ∃ t, assoc k sd = Some (FTensor t) ∧ shape t = shape (heap st !!! l))
    (state_dict m) ->
  ∃ h', load_state_dict m (FDict sd) st = (inr tt, set_heap h' st) ∧
        Forall (fun '(k, l) => assoc k sd = Some (FTensor (h' !!! l))) (state_dict m).
Proof.
  intros Hnd Hkeys Hall.
  destruct (load_params_ok sd (state_dict m) (heap st) Hnd Hall) as (h' & Hl & Hr & _).
  exists h'. split; [|done].
  unfold load_state_dict. rewrite Hl. rewrite unexpected_keys_nil by done. done.
Qed.

Lemma serialize_state_dict h m :
  serialize h (state_dict_obj m)
  = FDict (map (fun '(k, l) => (k, FTensor (h !!! l))) (state_dict m)).
Proof.
  unfold state_dict_obj. cbn [serialize]. f_equal.
  induction (state_dict m) as [|[k l] r IH]; cbn; [done|]. f_equal. exact IH.
Qed.

Lemma hidden_at_out_features n i hs :
  map out_features (hidden_at n i hs) = hs.
Proof.
  revert n i. induction hs as [|h r IH]; intros n i; cbn; [done|]. by rewrite IH.
Qed.

Lemma Network_new_out_features init i o hs st N st' :
  Network_new init i o hs st = (inr N, st') ->
  map out_features (hidden_layers N) = hs.
Proof.
  rewrite Network_new_spec. intros [= <- _]. apply hidden_at_out_features.
Qed.

Lemma Network_new_keys init i o hs st N st' :
  Network_new init i o hs st = (inr N, st') ->
  map fst (state_dict N) = param_keys (length hs).
Proof. rewrite Network_new_spec. intros [= <- _]. apply state_dict_keys. Qed.

Lemma Network_new_locs_NoDup init i o hs st N st' :
  Network_new init i o hs st = (inr N, st') ->
  NoDup (map snd (state_dict N)).
Proof.
  rewrite Network_new_spec. intros [= <- _]. rewrite state_dict_locs.
  apply NoDup_seq.
Qed.

Lemma map_fst_combine' {A B} (ks : list A) (vs : list B) :
  length ks = length vs -> map fst (combine ks vs) = ks.
Proof.
  revert vs. induction ks as [|k ks IH]; intros [|v vs]; cbn; try discriminate; [done|].
  intros [= Hl]. by rewrite IH.
Qed.

Lemma key_shapes_NoDup i o hs : NoDup (map fst (key_shapes i o hs)).
Proof.
  unfold key_shapes. rewrite map_fst_combine'; [apply param_keys_NoDup|].
  rewrite length_param_keys, length_param_shapes. lia.
Qed.

(* ------------------------------------------------------------------ *)
(** ** Loading a file the save cell wrote *)

Lemma serialize_checkpoint_dict h M :
  serialize h (checkpoint_dict M) =
  FDict [("input_size", FInt 784); ("output_size", FInt 10);
         ("hidden_layers", FIntList (map out_features (hidden_layers M)));
         ("state_dict", serialize h (state_dict_obj M))].
Proof. reflexivity. Qed.

(** A module "trained" from [Network(i, o, hs)]: built by [Network_new],
    then its parameter values changed in place in any way that keeps
    their shapes (as optimizer steps do). *)
Definition trained_from (init : nat -> list nat -> list Z) (i o : nat)
    (hs : list nat) (M : Network) (h : gmap nat Tensor) : Prop :=
  ∃ st0 st1, Network_new init i o hs st0 = (inr M, st1) ∧
    ∀ k l, In (k, l) (state_dict M) -> shape (h !!! l) = shape (heap st1 !!! l).

Lemma load_checkpoint_saved init init' hs M hsave path st :
  trained_from init' 784 10 hs M hsave ->
  files st !! path = Some (serialize hsave (checkpoint_dict M)) ->
  ∃ N st', load_checkpoint init path st = (inr (PyNetwork N), st') ∧
    read_params (heap st') N = read_params hsave M ∧
    Network_new init 784 10 hs (mkSt (heap st) (next_loc st) (files st))
      = (inr N, mkSt (ins_seq init (next_loc st) (param_shapes 784 10 hs) (heap st))
                     (next_loc st + length (param_shapes 784 10 hs)) (files st)).
Proof.
  intros (st0 & st1 & HM & Hshape) Hfile.
  assert (map out_features (hidden_layers M) = hs) as Hout
    by exact (Network_new_out_features _ _ _ _ _ _ _ HM).
  set (sdfile := map (fun '(k, l) => (k, FTensor (hsave !!! l))) (state_dict M)).
  unfold load_checkpoint.
  rewrite (bind_ok _ _ st (serialize hsave (checkpoint_dict M)) st)
    by (unfold torch_load; by rewrite Hfile).
  rewrite serialize_checkpoint_dict, Hout, serialize_state_dict.
  fold sdfile.
  rewrite (bind_ok _ _ st (FInt 784) st) by reflexivity.
  rewrite (bind_ok _ _ st (FInt 10) st) by reflexivity.
  rewrite (bind_ok _ _ st (FIntList hs) st) by reflexivity.
  pose proof (Network_new_spec init 784 10 hs st) as HN.
  set (N := net_at (next_loc st) 784 10 hs) in HN.
  set (stN := mkSt _ _ _) in HN.
  rewrite (bind_ok _ _ st N stN) by exact HN.
  rewrite (bind_ok _ _ stN (FDict sdfile) stN) by reflexivity.
  (* the stored tensors fit the fresh module *)
  assert (Hkeys : map fst sdfile = map fst (state_dict N)).
  { unfold sdfile. rewrite map_map.
    rewrite (Network_new_keys _ _ _ _ _ _ _ HN), <- (Network_new_keys _ _ _ _ _ _ _ HM).
    apply map_ext. by intros [k l]. }
  assert (HndK : NoDup (map fst sdfile)).
  { rewrite Hkeys, (Network_new_keys _ _ _ _ _ _ _ HN). apply param_keys_NoDup. }
  assert (Hfit : Forall (fun '(k, l) => ∃ t, assoc k sdfile = Some (FTensor t)
                          ∧ shape t = shape (heap stN !!! l)) (state_dict N)).
  { apply Forall_forall. intros [k l] Hin%list_elem_of_In.
    assert (In k (map fst (state_dict M))) as HkM.
    { rewrite (Network_new_keys _ _ _ _ _ _ _ HM), <- (Network_new_keys _ _ _ _ _ _ _ HN).
      apply in_map_iff. by exists (k, l). }
    apply in_map_iff in HkM as [[k' lM] [Hk' HinM]]. cbn in Hk'. subst k'.
    exists (hsave !!! lM). split.
    - apply assoc_In; [done|]. unfold sdfile. apply in_map_iff. by exists (k, lM).
    - rewrite (Hshape k lM HinM).
      apply (In_NoDup_fun (key_shapes 784 10 hs) k); [apply key_shapes_NoDup|..].
      + rewrite <- (Network_new_key_shapes _ _ _ _ _ _ _ HM).
        apply in_map_iff. by exists (k, lM).
      + rewrite <- (Network_new_key_shapes _ _ _ _ _ _ _ HN).
        apply in_map_iff. by exists (k, l). }
  destruct (load_state_dict_ok N sdfile stN) as (h' & Hload & Hread).
  { exact (Network_new_locs_NoDup _ _ _ _ _ _ _ HN). }
  { intros k Hk. by rewrite <- Hkeys. }
  { exact Hfit. }
  rewrite (bind_ok _ _ stN tt (set_heap h' stN)) by exact Hload.
  eexists N, _. split; [reflexivity|]. split; [|by destruct st].
  cbn [heap set_heap]. unfold read_params.
  apply (map_pair_eq _ _ (fun l => h' !!! l)
           (fun k => match assoc k sdfile with Some (FTensor t) => t | _ => inhabitant end)).
  - rewrite map_map, <- Hkeys. unfold sdfile. rewrite !map_map.
    apply map_ext. by intros [k l].
  - intros k l Hin. rewrite Forall_forall in Hread.
    specialize (Hread (k, l) (proj2 (list_elem_of_In _ _) Hin)). cbn in Hread.
    by rewrite Hread.
  - intros k b Hin. apply in_map_iff in Hin as [[k' lM] [Heq HinM]].
    injection Heq as -> <-.
    rewrite (assoc_In sdfile k (FTensor (hsave !!! lM))); [done|done|].
    unfold sdfile. apply in_map_iff. by exists (k, lM).
Qed.

(** Every successful [load_checkpoint] read an [input_size], an
    [output_size], a [hidden_layers] list and a [state_dict] dictionary
    from the file, and returned the module [Network_new] built from the
    three sizes alone. *)
Lemma load_checkpoint_inv init path st N st' :
  load_checkpoint init path st = (inr (PyNetwork N), st') ->
  ∃ kvs i o hs sd,
    files st !! path = Some (FDict kvs) ∧
    assoc "input_size" kvs = Some (FInt i) ∧
    assoc "output_size" kvs = Some (FInt o) ∧
    assoc "hidden_layers" kvs = Some (FIntList hs) ∧
    assoc "state_dict" kvs = Some (FDict sd) ∧
    N = net_at (next_loc st) i o hs.
Proof.
  unfold load_checkpoint, torch_load, getitem, fc_model_Network, load_state_dict, raise.
  unfold mbind, PyM_bind, mret, PyM_ret.
  destruct (files st !! path) as [v|] eqn:Hf; [|discriminate].
  destruct v as [| | |kvs]; try discriminate.
  destruct (assoc "input_size" kvs) as [[i| | |]|] eqn:Hi; try discriminate;
  destruct (assoc "output_size" kvs) as [[o| | |]|] eqn:Ho; try discriminate;
  destruct (assoc "hidden_layers" kvs) as [[|hs| |]|] eqn:Hh; try discriminate.
  rewrite Network_new_spec.
  destruct (assoc "state_dict" kvs) as [[| | |sd]|] eqn:Hs; try discriminate.
  repeat case_match; try discriminate. intros [= <- _].
  exists kvs, i, o, hs, sd. done.
Qed.

(* ------------------------------------------------------------------ *)
(** ** What the [_load_from_state_dict] walk reports and writes *)

(** The message one parameter produces, given what [sd] holds under its
    name and the parameter's current shape. *)
Definition msg_of (k : string) (v : option FVal) (s : list nat) : list LoadMsg :=
  match v with
  | None => []
  | Some (FTensor t) => if decide (shape t = s) then [] else [SizeMismatch k (shape t) s]
  | Some _ => [NotATensor k]
  end.

Definition missing_of (k : string) (v : option FVal) : list string :=
  match v with None => [k] | Some _ => [] end.

(** The value a parameter holds after the walk. *)
Definition copied (v : option FVal) (cur : option Tensor) : option Tensor :=
  match v with
  | Some (FTensor t) =>
      if decide (shape t = shape (default inhabitant cur))
      then Some (mkTensor (shape (default inhabitant cur)) (data t)) else cur
  | _ => cur
  end.

Lemma load_params_shape sd ps h l :
  shape (fst (fst (load_params sd ps h)) !!! l) = shape (h !!! l).
Proof.
  revert h. induction ps as [|[k l'] ps IH]; intros h; cbn; [done|].
  destruct (assoc k sd) as [[| | t|]|]; cbn;
    try (destruct (load_params sd ps h) as [[h' ?] ?] eqn:E; cbn;
         rewrite <- (IH h), E; done).
  case_decide.
  - rewrite IH. destruct (decide (l' = l)) as [->|Hne].
    + rewrite lookup_total_insert_eq. done.
    + by rewrite lookup_total_insert_ne.
  - destruct (load_params sd ps h) as [[h' ?] ?] eqn:E. cbn.
    rewrite <- (IH h), E. done.
Qed.

Lemma load_params_reports sd ps h :
  snd (fst (load_params sd ps h))
    = concat (map (fun '(k, _) => missing_of k (assoc k sd)) ps) ∧
  snd (load_params sd ps h)
    = concat (map (fun '(k, l) => msg_of k (assoc k sd) (shape (h !!! l))) ps).
Proof.
  revert h. induction ps as [|[k l] ps IH]; intros h; cbn; [done|].
  assert (Hext : ∀ h1 : gmap nat Tensor, (∀ l', shape (h1 !!! l') = shape (h !!! l')) ->
    concat (map (fun '(k, l) => msg_of k (assoc k sd) (shape (h1 !!! l))) ps)
    = concat (map (fun '(k, l) => msg_of k (assoc k sd) (shape (h !!! l))) ps)).
  { intros h1 Hs. f_equal. apply map_ext. intros [k' l']. by rewrite Hs. }
  destruct (assoc k sd) as [[| | t|]|] eqn:Ha; cbn;
    try (destruct (load_params sd ps h) as [[? ?] ?] eqn:E;
         destruct (IH h) as [H1 H2]; rewrite E in H1, H2; cbn in *; by subst).
  case_decide as Hs.
  - destruct (IH (<[l := mkTensor (shape (h !!! l)) (data t)]> h)) as [H1 H2].
    rewrite H1, H2. split; [done|]. apply Hext.
    intros l'. destruct (decide (l = l')) as [->|Hne].
    + by rewrite lookup_total_insert_eq.
    + by rewrite lookup_total_insert_ne.
  - destruct (load_params sd ps h) as [[? ?] ?] eqn:E.
    destruct (IH h) as [H1 H2]. rewrite E in H1, H2. cbn in *. by subst.
Qed.

Lemma load_params_heap sd ps h :
  NoDup (map snd ps) ->
  (∀ l, l ∉ map snd ps -> fst (fst (load_params sd ps h)) !! l = h !! l) ∧
  (∀ k l, In (k, l) ps -> fst (fst (load_params sd ps h)) !! l = copied (assoc k sd) (h !! l)).
Proof.
  revert h. induction ps as [|[k l] ps IH]; intros h Hnd; cbn.
  { split; [done|]. intros ? ? []. }
  inversion Hnd as [|? ? Hnin Hnd']; subst.
  assert (Hkeep : ∀ h1 : gmap nat Tensor, (∀ l', l' ≠ l -> h1 !! l' = h !! l') ->
     (∀ l', l' ∉ l :: map snd ps -> fst (fst (load_params sd ps h1)) !! l' = h !! l') ∧
     (∀ k' l', In (k', l') ps ->
        fst (fst (load_params sd ps h1)) !! l' = copied (assoc k' sd) (h !! l'))).
  { intros h1 Hh1. destruct (IH h1 Hnd') as [Ha Hb]. split.
    - intros l' Hl'. rewrite Ha; [apply Hh1; intros ->; apply Hl'; set_solver|]. intros ?; apply Hl'; set_solver.
    - intros k' l' Hin. rewrite (Hb k' l' Hin). rewrite Hh1; [done|].
      intros ->. apply Hnin. apply list_elem_of_In, in_map_iff. by exists (k', l). }
  assert (Hsame : ∀ h1 : gmap nat Tensor, fst (fst (load_params sd ps h1)) !! l = h1 !! l).
  { intros h1. apply (proj1 (IH h1 Hnd')). exact Hnin. }
  destruct (assoc k sd) as [[| | t|]|] eqn:Ha; cbn;
    try (destruct (load_params sd ps h) as [[h' ?] ?] eqn:E;
         destruct (Hkeep h) as [H1 H2]; [done|];
         pose proof (Hsame h) as H3; rewrite E in H1, H2, H3; cbn in *;
         split; [intros l' Hl'; apply H1; exact Hl' |];
         intros k' l' [Heq|Hin];
         [injection Heq as <- <-; unfold copied; rewrite Ha; done|by apply H2]).
  case_decide as Hs.
  - destruct (Hkeep (<[l := mkTensor (shape (h !!! l)) (data t)]> h)) as [H1 H2].
    { intros l' Hne. by rewrite lookup_insert_ne. }
    pose proof (Hsame (<[l := mkTensor (shape (h !!! l)) (data t)]> h)) as H3.
    split; [intros l' Hl'; apply H1; exact Hl'|].
    intros k' l' [Heq|Hin]; [|by apply H2].
    injection Heq as <- <-. rewrite H3, lookup_insert_eq. unfold copied. rewrite Ha.
    unfold lookup_total, map_lookup_total in Hs |- *.
    rewrite decide_True by done. done.
  - destruct (load_params sd ps h) as [[h' ?] ?] eqn:E.
    destruct (Hkeep h) as [H1 H2]; [done|].
    pose proof (Hsame h) as H3. rewrite E in H1, H2, H3. cbn in *.
    split; [intros l' Hl'; apply H1; exact Hl'|].
    intros k' l' [Heq|Hin]; [|by apply H2].
    injection Heq as <- <-. rewrite H3. unfold copied. rewrite Ha.
    unfold lookup_total, map_lookup_total in Hs. rewrite decide_False by done. done.
Qed.

(** The same reports, read off the shapes alone when every value of [sd]
    is a tensor. *)
Definition msg_shape (k : string) (o : option (list nat)) (s : list nat) : list LoadMsg :=
  match o with
  | None => []
  | Some s' => if decide (s' = s) then [] else [SizeMismatch k s' s]
  end.

Definition missing_shape (k : string) (o : option (list nat)) : list string :=
  match o with None => [k] | Some _ => [] end.

Lemma assoc_map {V W} (f : V -> W) k (xs : list (string * V)) :
  assoc k (map (fun '(k', v) => (k', f v)) xs) = option_map f (assoc k xs).
Proof.
  induction xs as [|[k' v] xs IH]; cbn; [done|]. by destruct (String.eqb k k').
Qed.

(** Loading the tensors saved from [M] (read through [h]) into [T] (whose
    parameters are read through [hT]): what is missing and what mismatches
    depends only on the two modules' names and shapes. *)
Lemma saved_reports (M T : Network) (h hT : gmap nat Tensor) KSM KST :
  map (fun '(k, l) => (k, shape (h !!! l))) (state_dict M) = KSM ->
  map (fun '(k, l) => (k, shape (hT !!! l))) (state_dict T) = KST ->
  map (fun '(k, l) => (k, missing_of k
         (assoc k (map (fun '(k', l') => (k', FTensor (h !!! l'))) (state_dict M)))))
      (state_dict T)
    = map (fun '(k, s) => (k, missing_shape k (assoc k KSM))) KST ∧
  map (fun '(k, l) => (k, msg_of k
         (assoc k (map (fun '(k', l') => (k', FTensor (h !!! l'))) (state_dict M)))
         (shape (hT !!! l))))
      (state_dict T)
    = map (fun '(k, s) => (k, msg_shape k (assoc k KSM) s)) KST.
Proof.
  intros <- <-. rewrite !map_map. split; apply map_ext; intros [k l]; cbn;
    rewrite (assoc_map (fun l' => FTensor (h !!! l'))),
            (assoc_map (fun l' => shape (h !!! l')));
    by destruct (assoc k (state_dict M)).
Qed.

(** A parameter whose entry produced a message keeps its value. *)
Lemma copied_unchanged k v cur :
  msg_of k v (shape (default inhabitant cur)) ≠ [] -> copied v cur = cur.
Proof.
  unfold msg_of, copied. destruct v as [[| | t|]|]; try done.
  by destruct (decide (shape t = shape (default inhabitant cur))).
Qed.

Lemma In_NoDup_snd {A B} (xs : list (A * B)) a b l :
  NoDup (map snd xs) -> In (a, l) xs -> In (b, l) xs -> a = b.
Proof.
  induction xs as [|[a' l'] xs IH]; cbn; [done|].
  intros Hnd Ha Hb; inversion Hnd as [|? ? Hnin Hnd']; subst.
  destruct Ha as [Ha|Ha], Hb as [Hb|Hb]; simplify_eq; auto.
  - exfalso. apply Hnin. apply list_elem_of_In, in_map_iff. by exists (b, l).
  - exfalso. apply Hnin. apply list_elem_of_In, in_map_iff. by exists (a, l).
Qed.

Lemma saved_keys (h : gmap nat Tensor) M :
  map fst (map (fun '(k, l) => (k, FTensor (h !!! l))) (state_dict M))
  = map fst (state_dict M).
Proof. rewrite map_map. apply map_ext. by intros [k l]. Qed.

Lemma trained_key_shapes init i o hs M h :
  trained_from init i o hs M h ->
  map (fun '(k, l) => (k, shape (h !!! l))) (state_dict M) = key_shapes i o hs.
Proof.
  intros (st0 & st1 & HM & Hshape).
  rewrite <- (Network_new_key_shapes _ _ _ _ _ _ _ HM). apply map_ext_in.
  intros [k l] Hin. cbn. by rewrite (Hshape k l Hin).
Qed.

(* ------------------------------------------------------------------ *)
(** ** What [load_checkpoint] reads and builds *)

Lemma bind_inr {A B} (m : PyM A) (f : A -> PyM B) st r st' :
  (m ≫= f) st = (inr r, st') -> ∃ a st1, m st = (inr a, st1) ∧ f a st1 = (inr r, st').
Proof.
  unfold mbind, PyM_bind. destruct (m st) as [[e|a] st1]; [discriminate|]. eauto.
Qed.

(** Once the four fields are found, [load_checkpoint] is [load_state_dict]
    on the module [Network_new] built from the three sizes. *)
Lemma load_checkpoint_unfold init path st kvs i o hs sd :
  files st !! path = Some (FDict kvs) ->
  assoc "input_size" kvs = Some (FInt i) ->
  assoc "output_size" kvs = Some (FInt o) ->
  assoc "hidden_layers" kvs = Some (FIntList hs) ->
  assoc "state_dict" kvs = Some (FDict sd) ->
  load_checkpoint init path st =
  (load_state_dict (net_at (next_loc st) i o hs) (FDict sd) ;;
   mret (PyNetwork (net_at (next_loc st) i o hs)))
    (mkSt (ins_seq init (next_loc st) (param_shapes i o hs) (heap st))
          (next_loc st + length (param_shapes i o hs)) (files st)).
Proof.
  intros Hf Hi Ho Hh Hs. unfold load_checkpoint.
  rewrite (bind_ok _ _ st (FDict kvs) st) by (unfold torch_load; by rewrite Hf).
  rewrite (bind_ok _ _ st (FInt i) st) by (unfold getitem; by rewrite Hi).
  rewrite (bind_ok _ _ st (FInt o) st) by (unfold getitem; by rewrite Ho).
  rewrite (bind_ok _ _ st (FIntList hs) st) by (unfold getitem; by rewrite Hh).
  rewrite (bind_ok _ _ st _ _) by apply Network_new_spec.
  rewrite (bind_ok _ _ _ (FDict sd) _) by (unfold getitem; by rewrite Hs).
  reflexivity.
Qed.

(** The shapes of the parameters of a loaded module are the ones
    [Network_new] gives the recorded sizes. *)
Lemma load_checkpoint_shapes init path st N st' kvs i o hs :
  files st !! path = Some (FDict kvs) ->
  assoc "input_size" kvs = Some (FInt i) ->
  assoc "output_size" kvs = Some (FInt o) ->
  assoc "hidden_layers" kvs = Some (FIntList hs) ->
  load_checkpoint init path st = (inr (PyNetwork N), st') ->
  map (fun '(k, l) => (k, shape (heap st' !!! l))) (state_dict N) = key_shapes i o hs.
Proof.
  intros Hf Hi Ho Hh.
  unfold load_checkpoint, torch_load, getitem, fc_model_Network, load_state_dict, raise.
  unfold mbind, PyM_bind, mret, PyM_ret.
  rewrite Hf, Hi, Ho, Hh, Network_new_spec.
  destruct (assoc "state_dict" kvs) as [[| | |sd]|]; try discriminate.
  destruct (load_params sd _ _) as [[h' miss] errs] eqn:E.
  cbn [heap] in E.
  destruct (_ ++ _ ++ errs); intros [= <- <-].
  rewrite <- (Network_new_key_shapes init i o hs st _ _ (Network_new_spec init i o hs st)).
  apply map_ext. intros [k l]. cbn [heap set_heap].
  pose proof (load_params_shape sd (state_dict (net_at (next_loc st) i o hs))
                (ins_seq init (next_loc st) (param_shapes i o hs) (heap st)) l) as Hs.
  rewrite E in Hs. cbn in Hs. by rewrite Hs.
Qed.

Lemma assoc_notin {V} k (xs : list (string * V)) :
  ¬ In k (map fst xs) -> assoc k xs = None.
Proof.
  induction xs as [|[k' v] xs IH]; cbn; [done|]. intros Hn.
  destruct (String.eqb k k') eqn:E.
  - apply String.eqb_eq in E. subst. destruct Hn. by left.
  - apply IH. intros Hin. apply Hn. by right.
Qed.

(** A parameter name absent from [sd] is reported as a missing key. *)
Lemma load_state_dict_missing N sd st k :
  In k (map fst (state_dict N)) -> ¬ In k (map fst sd) ->
  ∃ ks rest st', load_state_dict N (FDict sd) st
                 = (inl (RuntimeError (MissingKeys ks :: rest)), st') ∧ In k ks.
Proof.
  intros HinN Hnot. unfold load_state_dict.
  pose proof (load_params_reports sd (state_dict N) (heap st)) as [Hmiss _].
  destruct (load_params sd (state_dict N) (heap st)) as [[h' miss] errs].
  cbn [fst snd] in Hmiss.
  assert (Hk : In k miss).
  { rewrite Hmiss. apply in_concat. exists [k]. split; [|by left].
    apply in_map_iff in HinN as [[k' l] [Hk' HinN]]. cbn in Hk'. subst k'.
    apply in_map_iff. exists (k, l). split; [|exact HinN].
    cbn. by rewrite assoc_notin. }
  destruct miss as [|m ms]; [destruct Hk|].
  cbn [app]. eexists (m :: ms), _, _. split; [reflexivity|exact Hk].
Qed.

(** A key of [sd] naming no parameter is reported as an unexpected key. *)
Lemma load_state_dict_unexpected N sd st k :
  In k (map fst sd) -> ¬ In k (map fst (state_dict N)) ->
  ∃ msgs st', load_state_dict N (FDict sd) st = (inl (RuntimeError msgs), st') ∧
    ∃ ks, In (UnexpectedKeys ks) msgs ∧ In k ks.
Proof.
  intros Hin Hnot. unfold load_state_dict.
  assert (Hk : In k (unexpected_keys sd (state_dict N))).
  { unfold unexpected_keys. apply filter_In. split; [exact Hin|].
    destruct (existsb (String.eqb k) (map fst (state_dict N))) eqn:Ex; [|done].
    apply existsb_exists in Ex as (x & Hx & Heq). apply String.eqb_eq in Heq.
    subst. contradiction. }
  destruct (load_params sd (state_dict N) (heap st)) as [[h' miss] errs].
  destruct (unexpected_keys sd (state_dict N)) as [|u us] eqn:Eu; [destruct Hk|].
  destruct miss as [|m ms]; cbn [app].
  - eexists _, _. split; [reflexivity|]. exists (u :: us). split; [by left|exact Hk].
  - eexists _, _. split; [reflexivity|]. exists (u :: us). split; [right; by left|exact Hk].
Qed.

(** The file the save cell writes for a module built by [Network_new]. *)
Lemma saved_file_layout init i o hs st0 M st1 h :
  Network_new init i o hs st0 = (inr M, st1) ->
  ∃ sd, serialize h (checkpoint_dict M) =
        FDict [("input_size", FInt 784); ("output_size", FInt 10);
               ("hidden_layers", FIntList hs); ("state_dict", FDict sd)] ∧
        map fst sd = param_keys (length hs) ∧
        Forall (fun '(_, v) => ∃ t, v = FTensor t) sd.
Proof.
  intros HM. exists (map (fun '(k, l) => (k, FTensor (h !!! l))) (state_dict M)).
  rewrite serialize_checkpoint_dict, serialize_state_dict,
    (Network_new_out_features _ _ _ _ _ _ _ HM).
  split; [reflexivity|]. split.
  - rewrite saved_keys. exact (Network_new_keys _ _ _ _ _ _ _ HM).
  - apply Forall_forall. intros [k v] Hin%list_elem_of_In.
    apply in_map_iff in Hin as [[k' l] [Heq _]]. injection Heq as _ <-. by eexists.
Qed.

(** [del d[k]] on a dictionary. *)
Definition del_key {V} (k : string) (kvs : list (string * V)) : list (string * V) :=
  List.filter (fun p => negb (String.eqb (fst p) k)) kvs.

(** [del checkpoint[k]] *)
Definition del_field (k : string) (v : FVal) : FVal :=
  match v with
  | FDict kvs => FDict (del_key k kvs)
  | _ => v
  end.

(** [del checkpoint['state_dict'][k]] *)
Definition del_param (k : string) (v : FVal) : FVal :=
  match v with
  | FDict kvs =>
      FDict (map (fun '(k', v') =>
                    (k', if String.eqb k' "state_dict"
                         then match v' with FDict sd => FDict (del_key k sd) | _ => v' end
                         else v')) kvs)
  | _ => v
  end.

Lemma del_key_keys {V} k (xs : list (string * V)) :
  ¬ In k (map fst (del_key k xs)).
Proof.
  unfold del_key. induction xs as [|[k' v] xs IH]; cbn; [tauto|].
  destruct (String.eqb k' k) eqn:E; cbn; [exact IH|].
  intros [->|Hin]; [|by apply IH].
  by rewrite String.eqb_refl in E.
Qed.

(* ------------------------------------------------------------------ *)
(** ** What [load_state_dict] may change, and when it succeeds *)

Lemma load_params_frame sd ps h l :
  l ∉ map snd ps -> fst (fst (load_params sd ps h)) !! l = h !! l.
Proof.
  revert h. induction ps as [|[k l'] ps IH]; intros h Hl; cbn; [done|].
  cbn in Hl. apply not_elem_of_cons in Hl as [Hne Hl].
  destruct (assoc k sd) as [[| | t|]|]; cbn;
    try (destruct (load_params sd ps h) as [[h' ?] ?] eqn:E; cbn;
         rewrite <- (IH h Hl), E; done).
  case_decide.
  - rewrite IH by done. rewrite lookup_insert_ne; [done|congruence].
  - destruct (load_params sd ps h) as [[h' ?] ?] eqn:E. cbn.
    rewrite <- (IH h Hl), E. done.
Qed.

(** Whatever its outcome, [load_state_dict] writes no file, allocates
    nothing, writes only the module's own parameters, and changes no
    shape. *)
Lemma load_state_dict_effects m sdv st r st' :
  load_state_dict m sdv st = (r, st') ->
  files st' = files st ∧ next_loc st' = next_loc st ∧
  (∀ l, l ∉ map snd (state_dict m) -> heap st' !! l = heap st !! l) ∧
  (∀ l, shape (heap st' !!! l) = shape (heap st !!! l)).
Proof.
  destruct sdv as [| | |sd]; cbn; try (intros [= <- <-]; repeat split; done).
  pose proof (load_params_frame sd (state_dict m) (heap st)) as Hf.
  pose proof (load_params_shape sd (state_dict m) (heap st)) as Hs.
  destruct (load_params sd (state_dict m) (heap st)) as [[h' miss] errs].
  cbn [fst] in Hf, Hs.
  destruct (_ ++ _ ++ errs); intros [= <- <-]; cbn; repeat split; auto.
Qed.

(** A [load_state_dict] on a dictionary raises nothing but [RuntimeError]. *)
Lemma load_state_dict_error m sd st e st' :
  load_state_dict m (FDict sd) st = (inl e, st') -> ∃ msgs, e = RuntimeError msgs.
Proof.
  cbn. destruct (load_params sd (state_dict m) (heap st)) as [[h' miss] errs].
  destruct (_ ++ _ ++ errs); intros [= <- _]. by eexists.
Qed.

Lemma concat_nil_iff {A} (xss : list (list A)) :
  concat xss = [] ↔ ∀ xs, In xs xss -> xs = [].
Proof.
  induction xss as [|xs xss IH]; cbn; [split; [intros _ ? []|done]|].
  split.
  - intros [-> H]%app_eq_nil ys [<-|Hin]; [done|]. by apply IH.
  - intros H. rewrite (H xs (or_introl eq_refl)). cbn. apply IH. auto.
Qed.

Lemma unexpected_keys_nil_iff sd ps :
  unexpected_keys sd ps = [] ↔ ∀ k, In k (map fst sd) -> In k (map fst ps).
Proof.
  split; [|apply unexpected_keys_nil].
  intros Hu k Hk. destruct (existsb (String.eqb k) (map fst ps)) eqn:E.
  - apply existsb_exists in E as (x & Hx & Heq). apply String.eqb_eq in Heq. by subst.
  - exfalso. assert (In k (unexpected_keys sd ps)) as Hin.
    { unfold unexpected_keys. apply filter_In. split; [done|]. by rewrite E. }
    rewrite Hu in Hin. destruct Hin.
Qed.

(** A parameter reports nothing exactly when [sd] holds a tensor of its
    shape under its name. *)
Lemma entry_ok_iff k v s :
  missing_of k v = [] ∧ msg_of k v s = [] ↔ ∃ t, v = Some (FTensor t) ∧ shape t = s.
Proof.
  destruct v as [[| | t|]|]; cbn;
    try (split; [intros [H1 H2]; discriminate | intros (? & ? & _); discriminate]).
  case_decide; split.
  - intros _. by exists t.
  - intros _. done.
  - intros [_ ?]. discriminate.
  - intros (t' & [= <-] & ?). contradiction.
Qed.

Lemma load_state_dict_succeeds m sd st :
  fst (load_state_dict m (FDict sd) st) = inr tt ↔
  (∀ k l, In (k, l) (state_dict m) ->
     ∃ t, assoc k sd = Some (FTensor t) ∧ shape t = shape (heap st !!! l)) ∧
  (∀ k, In k (map fst sd) -> In k (map fst (state_dict m))).
Proof.
  unfold load_state_dict.
  pose proof (load_params_reports sd (state_dict m) (heap st)) as [Hm He].
  destruct (load_params sd (state_dict m) (heap st)) as [[h' miss] errs].
  cbn [fst snd] in Hm, He.
  transitivity (miss = [] ∧ unexpected_keys sd (state_dict m) = [] ∧ errs = []).
  { destruct miss, (unexpected_keys sd (state_dict m)), errs; cbn; split; intros H;
      try discriminate H; try (destruct H as (? & ? & ?); discriminate); done. }
  rewrite Hm, He, !concat_nil_iff, unexpected_keys_nil_iff.
  split.
  - intros (H1 & Hu & H2). split; [|done]. intros k l Hin.
    apply (entry_ok_iff k). split.
    + apply H1, in_map_iff. by exists (k, l).
    + apply H2, in_map_iff. by exists (k, l).
  - intros [Hok Hu]. split; [|split; [done|]].
    + intros xs ([k l] & <- & Hin)%in_map_iff.
      apply (entry_ok_iff k _ (shape (heap st !!! l))). by apply Hok.
    + intros xs ([k l] & <- & Hin)%in_map_iff. apply (entry_ok_iff k). by apply Hok.
Qed.

(** After a successful load, each parameter holds the tensor stored under
    its name. *)
Lemma load_state_dict_holds m sd st st' :
  NoDup (map snd (state_dict m)) ->
  load_state_dict m (FDict sd) st = (inr tt, st') ->
  ∀ k l, In (k, l) (state_dict m) -> assoc k sd = Some (FTensor (heap st' !!! l)).
Proof.
  intros Hnd Hload.
  assert (fst (load_state_dict m (FDict sd) st) = inr tt) as Hok by (by rewrite Hload).
  apply load_state_dict_succeeds in Hok as [Hfit Hkeys].
  destruct (load_state_dict_ok m sd st Hnd Hkeys) as (h' & Hl & Hr).
  { apply Forall_forall. intros [k l] Hin%list_elem_of_In. by apply Hfit. }
  rewrite Hl in Hload. injection Hload as <-.
  intros k l Hin. rewrite Forall_forall in Hr.
  exact (Hr (k, l) (proj2 (list_elem_of_In _ _) Hin)).
Qed.


(* ------------------------------------------------------------------ *)
(** ** Saving a state dict and loading it into a module *)

Lemma reload_same_unfold m st :
  reload_same_model m st =
  load_state_dict m (FDict (map (fun '(k, l) => (k, FTensor (heap st !!! l))) (state_dict m)))
    (mkSt (heap st) (next_loc st)
          (<["checkpoint.pth" := serialize (heap st) (state_dict_obj m)]> (files st))).
Proof.
  unfold reload_same_model.
  set (st_s := mkSt (heap st) (next_loc st)
                 (<["checkpoint.pth" := serialize (heap st) (state_dict_obj m)]> (files st))).
  rewrite (bind_ok _ _ st tt st_s) by reflexivity.
  rewrite (bind_ok _ _ st_s (FDict (map (fun '(k, l) => (k, FTensor (heap st !!! l))) (state_dict m))) st_s)
    by (unfold torch_load, st_s; cbn [files]; rewrite lookup_insert_eq;
        by rewrite serialize_state_dict).
  reflexivity.
Qed.

Lemma reload_unfold init M hs' st :
  reload_into_new_model init M hs' st =
  let '(r, st1) :=
    load_state_dict (net_at (next_loc st) 784 10 hs')
      (FDict (map (fun '(k, l) => (k, FTensor (heap st !!! l))) (state_dict M)))
      (mkSt (ins_seq init (next_loc st) (param_shapes 784 10 hs') (heap st))
            (next_loc st + length (param_shapes 784 10 hs'))
            (<["checkpoint.pth" := serialize (heap st) (state_dict_obj M)]> (files st))) in
  (inr (net_at (next_loc st) 784 10 hs', r), st1).
Proof.
  unfold reload_into_new_model.
  set (st_s := mkSt (heap st) (next_loc st)
                 (<["checkpoint.pth" := serialize (heap st) (state_dict_obj M)]> (files st))).
  rewrite (bind_ok _ _ st tt st_s) by reflexivity.
  rewrite (bind_ok _ _ st_s (FDict (map (fun '(k, l) => (k, FTensor (heap st !!! l))) (state_dict M))) st_s)
    by (unfold torch_load, st_s; cbn [files]; rewrite lookup_insert_eq;
        by rewrite serialize_state_dict).
  rewrite (bind_ok _ _ st_s _ _ (Network_new_spec init 784 10 hs' st_s)).
  unfold catch, mbind, PyM_bind, mret, PyM_ret. cbn [heap next_loc files st_s].
  destruct (load_state_dict _ _ _). reflexivity.
Qed.

Lemma combine_incl_eq {A B} (ks : list A) (xs ys : list B) :
  NoDup ks -> length xs = length ks -> length ys = length ks ->
  (∀ k x, In (k, x) (combine ks xs) -> In (k, x) (combine ks ys)) -> xs = ys.
Proof.
  revert xs ys. induction ks as [|k ks IH]; intros [|x xs] [|y ys]; cbn;
    try discriminate; [done|].
  intros Hnd Hx Hy Hincl. inversion Hnd as [|? ? Hnin Hnd']; subst.
  assert (x = y) as <-.
  { destruct (Hincl k x (or_introl eq_refl)) as [Heq|Hin].
    - injection Heq. done.
    - exfalso. apply Hnin. apply list_elem_of_In. exact (in_combine_l _ _ _ _ Hin). }
  f_equal. apply IH; [done|lia|lia|].
  intros k' x' Hin. destruct (Hincl k' x' (or_intror Hin)) as [Heq|Hin']; [|done].
  injection Heq as <- _. exfalso. apply Hnin. apply list_elem_of_In.
  exact (in_combine_l _ _ _ _ Hin).
Qed.

Lemma hidden_shapes_inj i hs hs' :
  hidden_shapes i hs = hidden_shapes i hs' -> hs = hs'.
Proof.
  revert i hs'. induction hs as [|h r IH]; intros i [|h' r'] H; cbn in H;
    try discriminate; [done|].
  injection H as -> _ H. f_equal. exact (IH h' r' H).
Qed.

Lemma length_hidden_shapes i hs : length (hidden_shapes i hs) = 2 * length hs.
Proof.
  revert i. induction hs as [|h r IH]; intros i; cbn -[Nat.mul]; [done|].
  rewrite IH. lia.
Qed.

Lemma param_shapes_inj i o hs hs' :
  length hs = length hs' -> param_shapes i o hs = param_shapes i o hs' -> hs = hs'.
Proof.
  unfold param_shapes. intros Hl H.
  apply app_inj_1 in H as [H _]; [exact (hidden_shapes_inj _ _ _ H)|].
  by rewrite !length_hidden_shapes, Hl.
Qed.

Lemma key_shapes_keys i o hs : map fst (key_shapes i o hs) = param_keys (length hs).
Proof.
  unfold key_shapes. apply map_fst_combine'.
  by rewrite length_param_keys, length_param_shapes.
Qed.

Lemma assoc_Some_In {V} k (xs : list (string * V)) v :
  assoc k xs = Some v -> In (k, v) xs.
Proof.
  induction xs as [|[k' v'] xs IH]; cbn; [done|].
  destruct (String.eqb_spec k k') as [->|]; [intros [= ->]; by left|].
  intros H. right. by apply IH.
Qed.

(** The tensors saved from a module with the layout of [Network(i, o, hs)]
    fit a module with the layout of [Network(i, o, hs')], every name
    present on both sides and every shape equal, only when [hs' = hs]. *)
Lemma saved_layout_eq i o hs hs' (M T : Network) (h hT : gmap nat Tensor) :
  map (fun '(k, l) => (k, shape (h !!! l))) (state_dict M) = key_shapes i o hs ->
  map (fun '(k, l) => (k, shape (hT !!! l))) (state_dict T) = key_shapes i o hs' ->
  (∀ k l, In (k, l) (state_dict T) ->
     ∃ t, assoc k (map (fun '(k', l') => (k', FTensor (h !!! l'))) (state_dict M))
            = Some (FTensor t) ∧ shape t = shape (hT !!! l)) ->
  (∀ k, In k (map fst (map (fun '(k', l') => (k', FTensor (h !!! l'))) (state_dict M))) ->
        In k (map fst (state_dict T))) ->
  hs' = hs.
Proof.
  intros KM KT Hfit Hkeys.
  assert (Hsub : ∀ k s, In (k, s) (key_shapes i o hs') -> In (k, s) (key_shapes i o hs)).
  { intros k s Hin. rewrite <- KT in Hin.
    apply in_map_iff in Hin as [[k' l] [Heq HinT]]. injection Heq as -> <-.
    destruct (Hfit k l HinT) as (t & Ht & Hs).
    apply assoc_Some_In, in_map_iff in Ht as [[k' lM] [Heq HinM]].
    injection Heq as -> Ht. rewrite <- Hs, <- Ht, <- KM.
    apply in_map_iff. exists (k, lM). split; [reflexivity|exact HinM]. }
  assert (HkM : map fst (state_dict M) = param_keys (length hs)).
  { rewrite <- (key_shapes_keys i o hs), <- KM, map_map. apply map_ext. by intros [k l]. }
  assert (HkT : map fst (state_dict T) = param_keys (length hs')).
  { rewrite <- (key_shapes_keys i o hs'), <- KT, map_map. apply map_ext. by intros [k l]. }
  assert (Hlen : length hs' = length hs).
  { enough (length (param_keys (length hs')) = length (param_keys (length hs))) as E
      by (rewrite !length_param_keys in E; lia).
    apply Nat.le_antisymm.
    - apply NoDup_incl_length; [apply NoDup_ListNoDup, param_keys_NoDup|]. intros k Hk. rewrite <- (key_shapes_keys i o hs') in Hk.
      apply in_map_iff in Hk as [[k' s] [<- Hin]].
      rewrite <- (key_shapes_keys i o hs). apply in_map_iff.
      exists (k', s). split; [reflexivity|]. by apply Hsub.
    - apply NoDup_incl_length; [apply NoDup_ListNoDup, param_keys_NoDup|]. intros k Hk.
      rewrite <- HkT. apply Hkeys. rewrite saved_keys, HkM. exact Hk. }
  assert (Hsh : param_shapes i o hs' = param_shapes i o hs).
  { apply (combine_incl_eq (param_keys (length hs))).
    - apply param_keys_NoDup.
    - by rewrite length_param_shapes, length_param_keys, Hlen.
    - by rewrite length_param_shapes, length_param_keys.
    - intros k s Hin. unfold key_shapes in Hsub. apply Hsub. rewrite Hlen. exact Hin. }
  exact (param_shapes_inj i o hs' hs ltac:(lia) Hsh).
Qed.

(** A successful load of the tensors saved from [M] into a module with the
    same parameter names gives it [M]'s parameters. *)
Lemma load_saved_params (M T : Network) h st st' :
  NoDup (map fst (state_dict M)) -> NoDup (map snd (state_dict T)) ->
  map fst (state_dict T) = map fst (state_dict M) ->
  load_state_dict T (FDict (map (fun '(k, l) => (k, FTensor (h !!! l))) (state_dict M))) st
    = (inr tt, st') ->
  read_params (heap st') T = read_params h M.
Proof.
  intros HndM HndT Hkeys Hload.
  set (sd := map (fun '(k, l) => (k, FTensor (h !!! l))) (state_dict M)) in Hload.
  pose proof (load_state_dict_holds T sd st st' HndT Hload) as Hholds.
  unfold read_params.
  apply (map_pair_eq _ _ (fun l => heap st' !!! l)
           (fun k => match assoc k sd with Some (FTensor t) => t | _ => inhabitant end)).
  - rewrite map_map, Hkeys. apply map_ext. by intros [k l].
  - intros k l Hin. by rewrite (Hholds k l Hin).
  - intros k b Hin. apply in_map_iff in Hin as [[k' lM] [Heq HinM]].
    injection Heq as -> <-.
    rewrite (assoc_In sd k (FTensor (h !!! lM))); [done| |].
    + unfold sd. by rewrite saved_keys.
    + unfold sd. apply in_map_iff. exists (k, lM). split; [reflexivity|exact HinM].
Qed.

(** Lines 237, 261, 321-323 for any module trained from
    [Network(784, 10, hs)] and any hidden sizes [hs'] of the second module. *)
Lemma reload_core init init' hs M hs' st :
  trained_from init' 784 10 hs M (heap st) ->
  ∃ T r st1, reload_into_new_model init M hs' st = (inr (T, r), st1) ∧
    Network_new init 784 10 hs' st
      = (inr T, mkSt (ins_seq init (next_loc st) (param_shapes 784 10 hs') (heap st))
                     (next_loc st + length (param_shapes 784 10 hs')) (files st)) ∧
    (r = inr tt ∨ ∃ msgs, r = inl (RuntimeError msgs)) ∧
    (r = inr tt ↔ hs' = hs) ∧
    (r = inr tt -> read_params (heap st1) T = read_params (heap st) M) ∧
    trained_from init 784 10 hs' T (heap st1).
Proof.
  intros Htr. pose proof (trained_key_shapes _ _ _ _ _ _ Htr) as KM.
  destruct Htr as (st0 & st1' & HM & _).
  rewrite reload_unfold.
  set (T := net_at (next_loc st) 784 10 hs').
  set (sd := map (fun '(k, l) => (k, FTensor (heap st !!! l))) (state_dict M)).
  set (stT := mkSt (ins_seq init (next_loc st) (param_shapes 784 10 hs') (heap st))
                   (next_loc st + length (param_shapes 784 10 hs')) (files st)).
  set (stTs := mkSt _ _ (<["checkpoint.pth" := _]> _)).
  assert (HT : Network_new init 784 10 hs' st = (inr T, stT)) by apply Network_new_spec.
  assert (KT : map (fun '(k, l) => (k, shape (heap stTs !!! l))) (state_dict T)
               = key_shapes 784 10 hs')
    by exact (Network_new_key_shapes _ _ _ _ _ _ _ HT).
  assert (HkM : map fst (state_dict M) = param_keys (length hs))
    by exact (Network_new_keys _ _ _ _ _ _ _ HM).
  assert (HkT : map fst (state_dict T) = param_keys (length hs'))
    by exact (Network_new_keys _ _ _ _ _ _ _ HT).
  assert (HndT : NoDup (map snd (state_dict T)))
    by exact (Network_new_locs_NoDup _ _ _ _ _ _ _ HT).
  destruct (load_state_dict T (FDict sd) stTs) as [r st1] eqn:Hload.
  pose proof (load_state_dict_effects _ _ _ _ _ Hload) as (_ & _ & _ & Hshape).
  assert (Hiff : r = inr tt ↔ hs' = hs).
  { split.
    - intros ->.
      assert (fst (load_state_dict T (FDict sd) stTs) = inr tt) as Hok by (by rewrite Hload).
      apply load_state_dict_succeeds in Hok as [Hfit Hkeys].
      exact (saved_layout_eq 784 10 hs hs' M T (heap st) (heap stTs) KM KT Hfit Hkeys).
    - intros Heq.
      enough (fst (load_state_dict T (FDict sd) stTs) = inr tt) as Hok
        by (rewrite Hload in Hok; exact Hok).
      apply load_state_dict_succeeds. split.
      + intros k l HinT.
        assert (In k (map fst (state_dict M))) as HkM'.
        { rewrite HkM, <- Heq, <- HkT. apply in_map_iff.
          exists (k, l). split; [reflexivity|exact HinT]. }
        apply in_map_iff in HkM' as [[k' lM] [Hk' HinM]]. cbn in Hk'. subst k'.
        exists (heap st !!! lM). split.
        * apply assoc_In.
          -- unfold sd. rewrite saved_keys, HkM. apply param_keys_NoDup.
          -- unfold sd. apply in_map_iff. exists (k, lM). split; [reflexivity|exact HinM].
        * apply (In_NoDup_fun (key_shapes 784 10 hs) k); [apply key_shapes_NoDup|..].
          -- rewrite <- KM. apply in_map_iff. exists (k, lM). split; [reflexivity|exact HinM].
          -- rewrite <- Heq, <- KT. apply in_map_iff.
             exists (k, l). split; [reflexivity|exact HinT].
      + intros k Hk. unfold sd in Hk. rewrite saved_keys, HkM in Hk.
        by rewrite HkT, Heq. }
  exists T, r, st1. split; [reflexivity|]. split; [exact HT|]. split.
  { destruct r as [e|[]]; [right|by left].
    destruct (load_state_dict_error _ _ _ _ _ Hload) as [msgs ->]. by exists msgs. }
  split; [exact Hiff|]. split.
  - intros Hr. apply (load_saved_params M T (heap st) stTs st1).
    + rewrite HkM. apply param_keys_NoDup.
    + exact HndT.
    + rewrite HkM, HkT. f_equal. f_equal. by apply Hiff.
    + rewrite <- Hr. exact Hload.
  - exists st, stT. split; [exact HT|]. intros k l _. rewrite Hshape. reflexivity.
Qed.

(* ------------------------------------------------------------------ *)
(** ** What [load_checkpoint] may change *)

Lemma bind_cases {A B} (m : PyM A) (f : A -> PyM B) st r st' :
  (m ≫= f) st = (r, st') ->
  (∃ e, m st = (inl e, st') ∧ r = inl e) ∨
  (∃ a st1, m st = (inr a, st1) ∧ f a st1 = (r, st')).
Proof.
  unfold mbind, PyM_bind. destruct (m st) as [[e|a] st1].
  - intros [= <- <-]. left. by exists e.
  - intros H. right. by exists a, st1.
Qed.

Lemma torch_load_state path st r st' : torch_load path st = (r, st') -> st' = st.
Proof. unfold torch_load. destruct (files st !! path); by intros [= _ <-]. Qed.

Lemma getitem_state d k st r st' : getitem d k st = (r, st') -> st' = st.
Proof.
  unfold getitem, raise, mret, PyM_ret. destruct d as [| | |kvs]; try by intros [= _ <-].
  destruct (assoc k kvs); by intros [= _ <-].
Qed.

Lemma fc_model_Network_cases init a b c st r st' :
  fc_model_Network init a b c st = (r, st') ->
  (st' = st ∧ r = inl TypeError) ∨
  ∃ i o hs, r = inr (net_at (next_loc st) i o hs) ∧
    st' = mkSt (ins_seq init (next_loc st) (param_shapes i o hs) (heap st))
               (next_loc st + length (param_shapes i o hs)) (files st).
Proof.
  unfold fc_model_Network, raise.
  destruct a as [i| | |], b as [o| | |], c as [|hs| |]; try (intros [= <- <-]; by left).
  rewrite Network_new_spec. intros [= <- <-]. right. by exists i, o, hs.
Qed.

(** Once [Network_new] has built [net_at (next_loc st) i o hs], a state
    that agrees with the built one on the files, the next free location
    and every location outside the new parameters. *)
Lemma after_build_frame init i o hs st st' :
  files st' = files st ->
  next_loc st' = next_loc st + length (param_shapes i o hs) ->
  (∀ l, l ∉ map snd (state_dict (net_at (next_loc st) i o hs)) ->
     heap st' !! l = ins_seq init (next_loc st) (param_shapes i o hs) (heap st) !! l) ->
  files st' = files st ∧
  (∀ l, l < next_loc st -> heap st' !! l = heap st !! l) ∧
  (∀ l, In l (map snd (state_dict (net_at (next_loc st) i o hs))) ->
     next_loc st ≤ l < next_loc st').
Proof.
  intros Hf Hn Hh. split; [done|]. split.
  - intros l Hl. rewrite Hh; [by apply ins_seq_lookup_lt|].
    rewrite state_dict_locs. intros Hin%list_elem_of_In. apply in_seq in Hin. lia.
  - intros l Hin. rewrite state_dict_locs in Hin. apply in_seq in Hin.
    rewrite Hn, length_param_shapes. lia.
Qed.

Lemma load_checkpoint_frame init path st r st' :
  load_checkpoint init path st = (r, st') ->
  files st' = files st ∧
  (∀ l, l < next_loc st -> heap st' !! l = heap st !! l) ∧
  (∀ N, r = inr (PyNetwork N) ->
     ∀ l, In l (map snd (state_dict N)) -> next_loc st ≤ l < next_loc st').
Proof.
  assert (Htriv : ∀ e, files st = files st ∧
            (∀ l, l < next_loc st -> heap st !! l = heap st !! l) ∧
            (∀ N, @inl Exc PyObj e = inr (PyNetwork N) ->
               ∀ l, In l (map snd (state_dict N)) -> next_loc st ≤ l < next_loc st))
    by (intros e; split; [done|split; [done|intros ? [=]]]).
  unfold load_checkpoint. intros H.
  apply bind_cases in H as [(e & H1 & ->)|(ck & st1 & H1 & H)];
    [apply torch_load_state in H1; subst st'; apply Htriv|
     apply torch_load_state in H1; subst st1].
  apply bind_cases in H as [(e & H1 & ->)|(a & st1 & H1 & H)];
    [apply getitem_state in H1; subst st'; apply Htriv|
     apply getitem_state in H1; subst st1].
  apply bind_cases in H as [(e & H1 & ->)|(b & st1 & H1 & H)];
    [apply getitem_state in H1; subst st'; apply Htriv|
     apply getitem_state in H1; subst st1].
  apply bind_cases in H as [(e & H1 & ->)|(c & st1 & H1 & H)];
    [apply getitem_state in H1; subst st'; apply Htriv|
     apply getitem_state in H1; subst st1].
  apply bind_cases in H as [(e & H1 & ->)|(N & stN & H1 & H)].
  { apply fc_model_Network_cases in H1 as [[-> _]|(i & o & hs & Hr & _)];
      [apply Htriv|discriminate]. }
  apply fc_model_Network_cases in H1 as [[_ Hr]|(i & o & hs & Hr & ->)]; [discriminate|].
  injection Hr as ->.
  apply bind_cases in H as [(e & H1 & ->)|(sdv & st1 & H1 & H)].
  - apply getitem_state in H1. subst st'.
    destruct (after_build_frame init i o hs st
                (mkSt (ins_seq init (next_loc st) (param_shapes i o hs) (heap st))
                      (next_loc st + length (param_shapes i o hs)) (files st))
                eq_refl eq_refl (fun _ _ => eq_refl)) as (F & K & _).
    split; [exact F|split; [exact K|intros ? [=]]].
  - apply getitem_state in H1. subst st1.
    apply bind_cases in H as [(e & H1 & ->)|([] & st1 & H1 & H)].
    + destruct (load_state_dict_effects _ _ _ _ _ H1) as (Hf & Hn & Hh & _).
      destruct (after_build_frame init i o hs st st' Hf Hn Hh) as (F & K & _).
      split; [exact F|split; [exact K|intros ? [=]]].
    + unfold mret, PyM_ret in H. injection H as <- <-.
      destruct (load_state_dict_effects _ _ _ _ _ H1) as (Hf & Hn & Hh & _).
      destruct (after_build_frame init i o hs st st1 Hf Hn Hh) as (F & K & L).
      split; [exact F|split; [exact K|]]. intros N [= <-]. exact L.
Qed.
(* ------------------------------------------------------------------ *)
(** ** Concrete states used by the witnesses *)

(** [Network(784, 10, [3])] built in an empty interpreter. *)
Definition demo_built : (Exc + Network) * St :=
  Network_new zero_init 784 10 [3] empty_st.

Definition demo_M : Network := net_at 0 784 10 [3].

(** The same module after a training step changed [hidden_layers.0.weight]
    and [output.bias]. *)
Definition demo_trained : St :=
  set_heap (<[0 := mkTensor [3; 784] [1; 2; 3]%Z]>
              (<[3 := mkTensor [10] [5; 5]%Z]> (heap (snd demo_built))))
           (snd demo_built).

Lemma demo_trained_from : trained_from zero_init 784 10 [3] demo_M (heap demo_trained).
Proof.
  exists empty_st, (snd demo_built). split; [vm_compute; reflexivity|].
  intros k l Hin. vm_compute in Hin.
  repeat destruct Hin as [Hin|Hin]; try (injection Hin as <- <-); try contradiction;
    vm_compute; reflexivity.
Qed.

(** [Network(784, 10, [512, 256, 128])], the module of the notebook, built
    in an empty interpreter, and the same module after a training step
    changed [output.bias]. *)
Definition big_built : (Exc + Network) * St :=
  Network_new zero_init 784 10 [512; 256; 128] empty_st.

Definition big_M : Network := net_at 0 784 10 [512; 256; 128].

Definition big_trained : St :=
  set_heap (<[7 := mkTensor [10] [5; 5]%Z]> (heap (snd big_built))) (snd big_built).

(** The seven messages of lines 319-324, in the order PyTorch lists them
    (checkpoint shape first, then the shape in the current model). *)
Definition mismatch_512_to_400 : list LoadMsg :=
  [SizeMismatch "hidden_layers.0.weight" [512; 784] [400; 784];
   SizeMismatch "hidden_layers.0.bias" [512] [400];
   SizeMismatch "hidden_layers.1.weight" [256; 512] [200; 400];
   SizeMismatch "hidden_layers.1.bias" [256] [200];
   SizeMismatch "hidden_layers.2.weight" [128; 256] [100; 200];
   SizeMismatch "hidden_layers.2.bias" [128] [100];
   SizeMismatch "output.weight" [10; 128] [10; 100]].

Lemma big_trained_from : trained_from zero_init 784 10 [512; 256; 128] big_M (heap big_trained).
Proof.
  exists empty_st, (snd big_built). split; [vm_compute; reflexivity|].
  intros k l Hin. vm_compute in Hin.
  repeat destruct Hin as [Hin|Hin]; try (injection Hin as <- <-); try contradiction;
    vm_compute; reflexivity.
Qed.

(** An interpreter whose only file is [checkpoint.pth], holding [v]. *)
Definition file_st (v : FVal) : St := mkSt ∅ 0 (<["checkpoint.pth" := v]> ∅).

(** The files written by the save cell for the two trained modules. *)
Definition demo_file : FVal := serialize (heap demo_trained) (checkpoint_dict demo_M).
Definition big_file : FVal := serialize (heap big_trained) (checkpoint_dict big_M).

(** A file whose [state_dict] has the single entry [extra]. *)
Definition odd_file : FVal :=
  FDict [("input_size", FInt 784); ("output_size", FInt 10);
         ("hidden_layers", FIntList [3]);
         ("state_dict", FDict [("extra", FTensor (mkTensor [1] []))])].

Definition fields (v : FVal) : list (string * FVal) :=
  match v with FDict kvs => kvs | _ => [] end.

(** A dictionary holding only an [output.bias] of the right shape. *)
Definition partial_sd : FVal := FDict [("output.bias", FTensor (mkTensor [10] [7]%Z))].


(** The trained [demo_M] in memory, next to the file the save cell wrote. *)
Definition demo_with_file : St :=
  mkSt (heap demo_trained) (next_loc demo_trained) (<["checkpoint.pth" := demo_file]> ∅).

Ltac in_concrete := vm_compute; repeat (first [left; reflexivity | right]).
Ltac notin_concrete :=
  vm_compute; let H := fresh in intros H; repeat (destruct H as [H|H]; [discriminate H|]); exact H.

(* ------------------------------------------------------------------ *)
(** ** Claims *)

(** C1 (amended). Round trip of the save cell and [load_checkpoint]: for
    every module trained from [Network(784, 10, hs)] (any hidden sizes, any
    parameter values of the constructed shapes), running the save cell and
    then [load_checkpoint('checkpoint.pth')] returns a module whose named
    parameters equal, name by name and bit for bit, those of the saved
    module at the moment of the save. *)
Theorem C1_save_load_roundtrip init init' hs M st :
  trained_from init' 784 10 hs M (heap st) ->
  ∃ N st', (save_checkpoint M ;; load_checkpoint init "checkpoint.pth") st
           = (inr (PyNetwork N), st') ∧
           read_params (heap st') N = read_params (heap st) M.
Proof.
  intros Htr.
  set (st_s := mkSt (heap st) (next_loc st)
                 (<["checkpoint.pth" := serialize (heap st) (checkpoint_dict M)]> (files st))).
  rewrite (bind_ok _ _ st (checkpoint_dict M) st_s) by reflexivity.
  destruct (load_checkpoint_saved init init' hs M (heap st) "checkpoint.pth" st_s Htr)
    as (N & st' & Hl & Hr & _).
  { unfold st_s. cbn [files]. apply lookup_insert_eq. }
  exists N, st'. split; [exact Hl|exact Hr].
Qed.

Lemma C1_save_load_roundtrip_witness :
  trained_from zero_init 784 10 [3] demo_M (heap demo_trained) ∧
  ∃ N st', (save_checkpoint demo_M ;; load_checkpoint zero_init "checkpoint.pth") demo_trained
           = (inr (PyNetwork N), st') ∧
           read_params (heap st') N = read_params (heap demo_trained) demo_M.
Proof.
  split; [exact demo_trained_from|].
  apply (C1_save_load_roundtrip zero_init zero_init [3] demo_M demo_trained).
  exact demo_trained_from.
Defined.

(** C1, counterexample: a module built as [Network(2, 3, [4])] does not
    come back: the save cell records the literals 784 and 10, so
    [load_checkpoint] builds [Network(784, 10, [4])] and [load_state_dict]
    raises on the three parameters whose shapes differ. *)
Lemma C1_roundtrip_fails_for_other_sizes :
  fst ((Network_new zero_init 2 3 [4] ≫= fun M =>
          save_checkpoint M ;; load_checkpoint zero_init "checkpoint.pth") empty_st)
  = inl (RuntimeError [SizeMismatch "hidden_layers.0.weight" [4; 2] [4; 784];
                       SizeMismatch "output.weight" [3; 4] [10; 4];
                       SizeMismatch "output.bias" [3] [10]]) ∧
  ¬ ∃ N st', (Network_new zero_init 2 3 [4] ≫= fun M =>
          save_checkpoint M ;; load_checkpoint zero_init "checkpoint.pth") empty_st
          = (inr (PyNetwork N), st').
Proof.
  split; [vm_compute; reflexivity|].
  intros (N & st' & H). vm_compute in H. discriminate.
Qed.

(** C2 (amended). Loading the parameters saved from a module trained from
    [Network(784, 10, [512, 256, 128])] into a module built as
    [Network(784, 10, [400, 200, 100])] (lines 237, 261, 321-323) raises a
    [RuntimeError] listing a size mismatch for each of the seven
    parameters whose shapes differ (every hidden weight and bias, and
    [output.weight]); [output.bias], whose shape [[10]] agrees, is copied
    into the target before the error is raised, and every other value of
    the heap is the one it had after the target was built. *)
Theorem C2_mismatched_load init init' M st :
  trained_from init' 784 10 [512; 256; 128] M (heap st) ->
  ∃ T stT, Network_new init 784 10 [400; 200; 100] st = (inr T, stT) ∧
  ∃ st',
    reload_into_new_model init M [400; 200; 100] st
      = (inr (T, inl (RuntimeError mismatch_512_to_400)), st') ∧
    heap st' = <[bias (output T) := mkTensor [10] (data (heap st !!! bias (output M)))]>
                 (heap stT).
Proof.
  intros Htr. pose proof (trained_key_shapes _ _ _ _ _ _ Htr) as KM.
  destruct Htr as (st0 & st1 & HM & _).
  pose proof (Network_new_spec init 784 10 [400; 200; 100] st) as HT.
  set (T := net_at (next_loc st) 784 10 [400; 200; 100]) in HT.
  eexists T, _. split; [exact HT|].
  set (st_s := mkSt (heap st) (next_loc st)
                 (<["checkpoint.pth" := serialize (heap st) (state_dict_obj M)]> (files st))).
  set (stTs := mkSt (ins_seq init (next_loc st) (param_shapes 784 10 [400; 200; 100]) (heap st))
                 (next_loc st + length (param_shapes 784 10 [400; 200; 100])) (files st_s)).
  assert (HTs : Network_new init 784 10 [400; 200; 100] st_s = (inr T, stTs))
    by apply Network_new_spec.
  set (sd := map (fun '(k, l) => (k, FTensor (heap st !!! l))) (state_dict M)).
  unfold reload_into_new_model.
  rewrite (bind_ok _ _ st tt st_s) by reflexivity.
  rewrite (bind_ok _ _ st_s (FDict sd) st_s)
    by (unfold torch_load, st_s; cbn [files]; rewrite lookup_insert_eq;
        by rewrite serialize_state_dict).
  rewrite (bind_ok _ _ st_s T stTs) by exact HTs.
  pose proof (Network_new_key_shapes _ _ _ _ _ _ _ HTs) as KT.
  destruct (saved_reports M T (heap st) (heap stTs) _ _ KM KT) as [Hsr1 Hsr2].
  fold sd in Hsr1, Hsr2.
  pose proof (load_params_reports sd (state_dict T) (heap stTs)) as [Hmiss Herrs].
  assert (HndT : NoDup (map snd (state_dict T)))
    by exact (Network_new_locs_NoDup _ _ _ _ _ _ _ HTs).
  pose proof (load_params_heap sd (state_dict T) (heap stTs) HndT) as [Hout Hin].
  unfold catch, load_state_dict, mbind, PyM_bind, mret, PyM_ret.
  destruct (load_params sd (state_dict T) (heap stTs)) as [[h' miss] errs] eqn:E.
  cbn [fst snd] in Hmiss, Herrs, Hout, Hin.
  assert (miss = []) as ->.
  { rewrite Hmiss.
    transitivity (concat (map snd (map (fun '(k, l) => (k, missing_of k (assoc k sd)))
                                     (state_dict T)))).
    { rewrite map_map. apply (f_equal (@concat _)), map_ext. by intros [k l]. }
    rewrite Hsr1. vm_compute. reflexivity. }
  assert (errs = mismatch_512_to_400) as ->.
  { rewrite Herrs.
    transitivity (concat (map snd (map (fun '(k, l) =>
                     (k, msg_of k (assoc k sd) (shape (heap stTs !!! l)))) (state_dict T)))).
    { rewrite map_map. apply (f_equal (@concat _)), map_ext. by intros [k l]. }
    rewrite Hsr2. vm_compute. reflexivity. }
  assert (unexpected_keys sd (state_dict T) = []) as ->.
  { apply unexpected_keys_nil. intros k Hk. unfold sd in Hk.
    rewrite saved_keys, (Network_new_keys _ _ _ _ _ _ _ HM) in Hk.
    by rewrite (Network_new_keys _ _ _ _ _ _ _ HTs). }
  eexists. split; [reflexivity|]. cbn [heap set_heap].
  (* what each parameter of [T] reported, name by name *)
  assert (Hchk : ∀ k m,
    In (k, m) (map (fun '(k, s) => (k, msg_shape k (assoc k (key_shapes 784 10 [512; 256; 128])) s))
                 (key_shapes 784 10 [400; 200; 100])) ->
    k = "output.bias" ∨ m ≠ []).
  { intros k m Hk. vm_compute in Hk.
    repeat destruct Hk as [Hk|Hk]; try (injection Hk as <- <-); try contradiction;
      first [left; reflexivity | right; discriminate]. }
  assert (HndK : NoDup (map fst (state_dict T))).
  { rewrite (Network_new_keys _ _ _ _ _ _ _ HTs). apply param_keys_NoDup. }
  assert (HbT : In ("output.bias", bias (output T)) (state_dict T)).
  { unfold state_dict. apply in_or_app. right. right. left. reflexivity. }
  assert (HbM : In ("output.bias", bias (output M)) (state_dict M)).
  { unfold state_dict. apply in_or_app. right. right. left. reflexivity. }
  assert (Hsd : assoc "output.bias" sd = Some (FTensor (heap st !!! bias (output M)))).
  { apply assoc_In.
    - unfold sd. rewrite saved_keys, (Network_new_keys _ _ _ _ _ _ _ HM).
      apply param_keys_NoDup.
    - unfold sd. apply in_map_iff. exists ("output.bias", bias (output M)). split; [reflexivity|exact HbM]. }
  assert (Hs10 : ∀ (hh : gmap nat Tensor) N hs l,
    In ("output.bias", [10]) (key_shapes 784 10 hs) ->
    map (fun '(k, l) => (k, shape (hh !!! l))) (state_dict N) = key_shapes 784 10 hs ->
    In ("output.bias", l) (state_dict N) -> shape (hh !!! l) = [10]).
  { intros hh N hs l H10 HK Hl.
    apply (In_NoDup_fun (key_shapes 784 10 hs) "output.bias"); [apply key_shapes_NoDup| |done].
    rewrite <- HK. apply in_map_iff. exists ("output.bias", l). split; [reflexivity|exact Hl]. }
  pose proof (Hs10 (heap st) M [512; 256; 128] _ ltac:(vm_compute; repeat (first [left; reflexivity | right]))
                KM HbM) as H1.
  pose proof (Hs10 (heap stTs) T [400; 200; 100] _ ltac:(vm_compute; repeat (first [left; reflexivity | right]))
                KT HbT) as H2.
  apply map_eq. intros x.
  destruct (decide (x ∈ map snd (state_dict T))) as [Hx|Hx].
  - apply list_elem_of_In, in_map_iff in Hx as [[k l] [Hl HinT]]. cbn in Hl. subst x.
    rewrite (Hin k l HinT).
    destruct (decide (l = bias (output T))) as [->|Hne].
    + assert (k = "output.bias") as -> by exact (In_NoDup_snd _ _ _ _ HndT HinT HbT).
      rewrite lookup_insert_eq. unfold copied. rewrite Hsd.
      unfold lookup_total, map_lookup_total in H1, H2 |- *.
      rewrite H1, H2, decide_True by done. done.
    + rewrite lookup_insert_ne by congruence.
      assert (Hkm : In (k, msg_of k (assoc k sd) (shape (heap stTs !!! l)))
                     (map (fun '(k, s) => (k, msg_shape k
                             (assoc k (key_shapes 784 10 [512; 256; 128])) s))
                          (key_shapes 784 10 [400; 200; 100]))).
      { rewrite <- Hsr2. apply in_map_iff. exists (k, l). split; [reflexivity|exact HinT]. }
      destruct (Hchk _ _ Hkm) as [->|Hm].
      * by destruct Hne; apply (In_NoDup_fun _ _ _ _ HndK HinT HbT).
      * apply (copied_unchanged k). exact Hm.
  - rewrite (Hout x Hx), lookup_insert_ne; [done|].
    intros <-. apply Hx. apply list_elem_of_In, in_map_iff.
    exists ("output.bias", bias (output T)). split; [reflexivity|exact HbT].
Qed.

Lemma C2_mismatched_load_witness :
  trained_from zero_init 784 10 [512; 256; 128] big_M (heap big_trained) ∧
  ∃ T stT, Network_new zero_init 784 10 [400; 200; 100] big_trained = (inr T, stT) ∧
  ∃ st',
    reload_into_new_model zero_init big_M [400; 200; 100] big_trained
      = (inr (T, inl (RuntimeError mismatch_512_to_400)), st') ∧
    heap st' = <[bias (output T) := mkTensor [10] (data (heap big_trained !!! bias (output big_M)))]>
                 (heap stT).
Proof.
  split; [exact big_trained_from|].
  apply (C2_mismatched_load zero_init zero_init big_M big_trained).
  exact big_trained_from.
Defined.

(** C2, counterexample: the failed load does change a parameter of the
    target. After training changed [output.bias] of the saved module to
    [[5, 5]], the target's [output.bias] holds [[5, 5]] after the
    [RuntimeError], not the value its constructor gave it. *)
Lemma C2_failed_load_mutates_target :
  ∃ T stT st' msgs,
    Network_new zero_init 784 10 [400; 200; 100] big_trained = (inr T, stT) ∧
    reload_into_new_model zero_init big_M [400; 200; 100] big_trained
      = (inr (T, inl (RuntimeError msgs)), st') ∧
    In ("output.bias", bias (output T)) (state_dict T) ∧
    heap st' !!! bias (output T) = mkTensor [10] [5; 5]%Z ∧
    heap st' !!! bias (output T) ≠ heap stT !!! bias (output T).
Proof.
  exists (net_at 8 784 10 [400; 200; 100]),
    (snd (Network_new zero_init 784 10 [400; 200; 100] big_trained)),
    (snd (reload_into_new_model zero_init big_M [400; 200; 100] big_trained)),
    mismatch_512_to_400.
  split; [vm_compute; reflexivity|].
  split; [vm_compute; reflexivity|].
  split; [unfold state_dict; apply in_or_app; right; right; left; reflexivity|].
  split; [vm_compute; reflexivity|].
  vm_compute. congruence.
Qed.

(** C3. [load_checkpoint] on any file whose fields record
    [input_size = 784], [output_size = 10] and
    [hidden_layers = [512, 256, 128]] returns, when it succeeds, the module
    [Network_new] builds from those three fields at the next free
    location, whatever else holds: its layers map 784 -> 512 -> 256 ->
    128 -> 10, and its parameters have the matching shapes. *)
Theorem C3_shapes_from_descriptor init path st kvs N st' :
  files st !! path = Some (FDict kvs) ->
  assoc "input_size" kvs = Some (FInt 784) ->
  assoc "output_size" kvs = Some (FInt 10) ->
  assoc "hidden_layers" kvs = Some (FIntList [512; 256; 128]) ->
  load_checkpoint init path st = (inr (PyNetwork N), st') ->
  N = net_at (next_loc st) 784 10 [512; 256; 128] ∧
  map (fun l => (in_features l, out_features l)) (hidden_layers N ++ [output N])
    = [(784, 512); (512, 256); (256, 128); (128, 10)] ∧
  map (fun '(k, l) => (k, shape (heap st' !!! l))) (state_dict N)
    = [("hidden_layers.0.weight", [512; 784]); ("hidden_layers.0.bias", [512]);
       ("hidden_layers.1.weight", [256; 512]); ("hidden_layers.1.bias", [256]);
       ("hidden_layers.2.weight", [128; 256]); ("hidden_layers.2.bias", [128]);
       ("output.weight", [10; 128]); ("output.bias", [10])].
Proof.
  intros Hf Hi Ho Hh Hl.
  pose proof (load_checkpoint_shapes _ _ _ _ _ _ _ _ _ Hf Hi Ho Hh Hl) as Hs.
  destruct (load_checkpoint_inv _ _ _ _ _ Hl)
    as (kvs' & i & o & hs & sd & Hf' & Hi' & Ho' & Hh' & _ & ->).
  rewrite Hf in Hf'. injection Hf' as <-.
  rewrite Hi in Hi'. rewrite Ho in Ho'. rewrite Hh in Hh'.
  injection Hi' as <-. injection Ho' as <-. injection Hh' as <-.
  split; [reflexivity|]. split; [reflexivity|].
  rewrite Hs. vm_compute. reflexivity.
Qed.

Lemma C3_shapes_from_descriptor_witness :
  files (file_st big_file) !! "checkpoint.pth" = Some (FDict (fields big_file)) ∧
  assoc "input_size" (fields big_file) = Some (FInt 784) ∧
  assoc "output_size" (fields big_file) = Some (FInt 10) ∧
  assoc "hidden_layers" (fields big_file) = Some (FIntList [512; 256; 128]) ∧
  load_checkpoint zero_init "checkpoint.pth" (file_st big_file)
    = (inr (PyNetwork (net_at 0 784 10 [512; 256; 128])),
       snd (load_checkpoint zero_init "checkpoint.pth" (file_st big_file))) ∧
  map (fun l => (in_features l, out_features l))
      (hidden_layers (net_at 0 784 10 [512; 256; 128]) ++ [output (net_at 0 784 10 [512; 256; 128])])
    = [(784, 512); (512, 256); (256, 128); (128, 10)].
Proof.
  assert (H1 : files (file_st big_file) !! "checkpoint.pth" = Some (FDict (fields big_file)))
    by (vm_compute; reflexivity).
  assert (H2 : assoc "input_size" (fields big_file) = Some (FInt 784)) by (vm_compute; reflexivity).
  assert (H3 : assoc "output_size" (fields big_file) = Some (FInt 10)) by (vm_compute; reflexivity).
  assert (H4 : assoc "hidden_layers" (fields big_file) = Some (FIntList [512; 256; 128]))
    by (vm_compute; reflexivity).
  assert (H5 : load_checkpoint zero_init "checkpoint.pth" (file_st big_file)
    = (inr (PyNetwork (net_at 0 784 10 [512; 256; 128])),
       snd (load_checkpoint zero_init "checkpoint.pth" (file_st big_file))))
    by (vm_compute; reflexivity).
  do 5 (split; [assumption|]).
  exact (proj1 (proj2 (C3_shapes_from_descriptor zero_init "checkpoint.pth" (file_st big_file)
                         (fields big_file) _ _ H1 H2 H3 H4 H5))).
Defined.

(** C4. Removing a field from the file the save cell wrote makes
    [load_checkpoint] raise, so that no module is returned: removing one
    of the four top-level fields raises [KeyError] naming it; removing a
    parameter entry such as [output.weight] from [checkpoint['state_dict']]
    raises [RuntimeError] whose first message lists it among the missing
    keys. *)
Theorem C4_missing_field init init' hs M hsave path st :
  trained_from init' 784 10 hs M hsave ->
  (∀ k, In k ["input_size"; "output_size"; "hidden_layers"; "state_dict"] ->
     files st !! path = Some (del_field k (serialize hsave (checkpoint_dict M))) ->
     ∃ st', load_checkpoint init path st = (inl (KeyError k), st')) ∧
  (∀ k, In k (map fst (state_dict M)) ->
     files st !! path = Some (del_param k (serialize hsave (checkpoint_dict M))) ->
     ∃ ks rest st', load_checkpoint init path st
                    = (inl (RuntimeError (MissingKeys ks :: rest)), st') ∧ In k ks).
Proof.
  intros (st0 & st1 & HM & _).
  pose proof (Network_new_out_features _ _ _ _ _ _ _ HM) as Hout.
  set (sd := map (fun '(k, l) => (k, FTensor (hsave !!! l))) (state_dict M)).
  assert (Hfile : serialize hsave (checkpoint_dict M) =
    FDict [("input_size", FInt 784); ("output_size", FInt 10);
           ("hidden_layers", FIntList hs); ("state_dict", FDict sd)]).
  { by rewrite serialize_checkpoint_dict, serialize_state_dict, Hout. }
  rewrite Hfile. split.
  - intros k Hk Hf. unfold load_checkpoint.
    rewrite (bind_ok _ _ st _ st) by (unfold torch_load; by rewrite Hf).
    cbn in Hk. destruct Hk as [<-|[<-|[<-|[<-|[]]]]].
    + rewrite (bind_err _ _ st (KeyError "input_size") st) by reflexivity. by eexists.
    + rewrite (bind_ok _ _ st (FInt 784) st) by reflexivity.
      rewrite (bind_err _ _ st (KeyError "output_size") st) by reflexivity. by eexists.
    + rewrite (bind_ok _ _ st (FInt 784) st) by reflexivity.
      rewrite (bind_ok _ _ st (FInt 10) st) by reflexivity.
      rewrite (bind_err _ _ st (KeyError "hidden_layers") st) by reflexivity. by eexists.
    + rewrite (bind_ok _ _ st (FInt 784) st) by reflexivity.
      rewrite (bind_ok _ _ st (FInt 10) st) by reflexivity.
      rewrite (bind_ok _ _ st (FIntList hs) st) by reflexivity.
      rewrite (bind_ok _ _ st _ _) by apply Network_new_spec.
      rewrite (bind_err _ _ _ (KeyError "state_dict") _) by reflexivity. by eexists.
  - intros k Hk Hf.
    assert (Hf' : files st !! path = Some (FDict
      [("input_size", FInt 784); ("output_size", FInt 10);
       ("hidden_layers", FIntList hs); ("state_dict", FDict (del_key k sd))]))
      by (rewrite Hf; reflexivity).
    rewrite (load_checkpoint_unfold init path st _ 784 10 hs (del_key k sd) Hf')
      by reflexivity.
    destruct (load_state_dict_missing (net_at (next_loc st) 784 10 hs) (del_key k sd)
                (mkSt (ins_seq init (next_loc st) (param_shapes 784 10 hs) (heap st))
                      (next_loc st + length (param_shapes 784 10 hs)) (files st)) k)
      as (ks & rest & st' & HL & Hks).
    { rewrite state_dict_keys, <- (Network_new_keys _ _ _ _ _ _ _ HM). exact Hk. }
    { apply del_key_keys. }
    exists ks, rest, st'. split; [|exact Hks]. exact (bind_err _ _ _ _ _ HL).
Qed.

Lemma C4_missing_field_witness :
  trained_from zero_init 784 10 [3] demo_M (heap demo_trained) ∧
  (∃ ks rest st',
     load_checkpoint zero_init "checkpoint.pth" (file_st (del_param "output.weight" demo_file))
       = (inl (RuntimeError (MissingKeys ks :: rest)), st') ∧ In "output.weight" ks) ∧
  (∃ st', load_checkpoint zero_init "checkpoint.pth" (file_st (del_field "input_size" demo_file))
            = (inl (KeyError "input_size"), st')).
Proof.
  pose proof (C4_missing_field zero_init zero_init [3] demo_M (heap demo_trained)
                "checkpoint.pth") as HC.
  split; [exact demo_trained_from|]. split.
  - apply (proj2 (HC _ demo_trained_from)); [in_concrete|reflexivity].
  - apply (proj1 (HC _ demo_trained_from)); [in_concrete|reflexivity].
Defined.

(** C5 (amended). The file is a copy: once the save cell has run, the file
    holds the parameter values of that moment, and whatever happens to the
    heap afterwards (any in-place update of the parameters, any new
    allocation), [load_checkpoint] on that file reproduces them. *)
Theorem C5_saved_file_is_a_copy init init' hs M st :
  trained_from init' 784 10 hs M (heap st) ->
  ∃ ck st_s, save_checkpoint M st = (inr ck, st_s) ∧
    files st_s !! "checkpoint.pth" = Some (serialize (heap st) (checkpoint_dict M)) ∧
    ∀ h' n', ∃ N st', load_checkpoint init "checkpoint.pth" (mkSt h' n' (files st_s))
                      = (inr (PyNetwork N), st') ∧
                      read_params (heap st') N = read_params (heap st) M.
Proof.
  intros Htr. eexists (checkpoint_dict M), _. split; [reflexivity|].
  split; [apply lookup_insert_eq|].
  intros h' n'.
  destruct (load_checkpoint_saved init init' hs M (heap st) "checkpoint.pth"
              (mkSt h' n' (<["checkpoint.pth" := serialize (heap st) (checkpoint_dict M)]>
                             (files st))) Htr)
    as (N & st' & Hl & Hr & _).
  { apply lookup_insert_eq. }
  exists N, st'. split; [exact Hl|exact Hr].
Qed.

Lemma C5_saved_file_is_a_copy_witness :
  trained_from zero_init 784 10 [3] demo_M (heap demo_trained) ∧
  ∃ ck st_s, save_checkpoint demo_M demo_trained = (inr ck, st_s) ∧
    files st_s !! "checkpoint.pth" = Some (serialize (heap demo_trained) (checkpoint_dict demo_M)) ∧
    ∀ h' n', ∃ N st', load_checkpoint zero_init "checkpoint.pth" (mkSt h' n' (files st_s))
                      = (inr (PyNetwork N), st') ∧
                      read_params (heap st') N = read_params (heap demo_trained) demo_M.
Proof.
  split; [exact demo_trained_from|].
  exact (C5_saved_file_is_a_copy zero_init zero_init [3] demo_M demo_trained demo_trained_from).
Defined.

(** C5, counterexample: the dictionary the save cell builds and keeps
    bound to [checkpoint] is not a copy. Its ['state_dict'] entry holds the
    tensors of [model.state_dict()], which share storage with the
    parameters: after an in-place update of [hidden_layers.0.weight], the
    file is unchanged but [torch.save(checkpoint, ...)] of the same
    dictionary would write the new values. *)
Lemma C5_checkpoint_dict_aliases_parameters :
  ∃ ck st_s, save_checkpoint demo_M demo_trained = (inr ck, st_s) ∧
    let h_mut := <[0 := mkTensor [3; 784] [9; 9; 9]%Z]> (heap st_s) in
    files (set_heap h_mut st_s) = files st_s ∧
    serialize h_mut ck ≠ serialize (heap st_s) ck.
Proof.
  exists (checkpoint_dict demo_M), (snd (save_checkpoint demo_M demo_trained)).
  split; [reflexivity|]. split; [reflexivity|].
  vm_compute. congruence.
Qed.

(** C6 (amended). [load_checkpoint] returns the module alone
    ([return model]); it does not return the sizes it read. *)
Theorem C6_load_returns_module init path st r st' :
  load_checkpoint init path st = (inr r, st') -> ∃ N, r = PyNetwork N.
Proof.
  unfold load_checkpoint. intros H.
  repeat (apply bind_inr in H as (? & ? & _ & H)).
  unfold mret, PyM_ret in H. injection H as <- _. by eexists.
Qed.

Lemma C6_load_returns_module_witness :
  load_checkpoint zero_init "checkpoint.pth" (file_st demo_file)
    = (inr (PyNetwork (net_at 0 784 10 [3])),
       snd (load_checkpoint zero_init "checkpoint.pth" (file_st demo_file))) ∧
  ∃ N, PyNetwork (net_at 0 784 10 [3]) = PyNetwork N.
Proof.
  assert (H : load_checkpoint zero_init "checkpoint.pth" (file_st demo_file)
    = (inr (PyNetwork (net_at 0 784 10 [3])),
       snd (load_checkpoint zero_init "checkpoint.pth" (file_st demo_file))))
    by (vm_compute; reflexivity).
  split; [exact H|]. exact (C6_load_returns_module _ _ _ _ _ H).
Defined.

(** C6, counterexample: loading the file saved from [Network(784, 10,
    [3])] returns the module, not a pair (module, architecture). *)
Lemma C6_no_pair_returned :
  ∃ N st', load_checkpoint zero_init "checkpoint.pth" (file_st demo_file)
             = (inr (PyNetwork N), st') ∧
  ¬ ∃ r st' m a, load_checkpoint zero_init "checkpoint.pth" (file_st demo_file)
                   = (inr r, st') ∧ r = PyTuple [m; a].
Proof.
  eexists _, _. split; [vm_compute; reflexivity|].
  intros (r & st' & m & a & H & ->). vm_compute in H. discriminate.
Qed.

(** C7 (amended). The file the save cell writes for a module built by
    [Network_new init i o hs] is a dictionary with exactly the fields
    [input_size] (the literal 784), [output_size] (the literal 10),
    [hidden_layers] (the hidden sizes, in order) and [state_dict], whose
    entries are tensors named [hidden_layers.<j>.weight],
    [hidden_layers.<j>.bias] for j = 0, 1, ... in application order,
    then [output.weight] and [output.bias]. *)
Theorem C7_checkpoint_layout init i o hs st0 M st1 h :
  Network_new init i o hs st0 = (inr M, st1) ->
  ∃ sd, serialize h (checkpoint_dict M) =
        FDict [("input_size", FInt 784); ("output_size", FInt 10);
               ("hidden_layers", FIntList hs); ("state_dict", FDict sd)] ∧
        map fst sd = hidden_keys 0 (length hs) ++ ["output.weight"; "output.bias"] ∧
        Forall (fun '(_, v) => ∃ t, v = FTensor t) sd.
Proof.
  intros HM. exact (saved_file_layout _ _ _ _ _ _ _ h HM).
Qed.

Lemma C7_checkpoint_layout_witness :
  Network_new zero_init 784 10 [3] empty_st = (inr demo_M, snd demo_built) ∧
  ∃ sd, serialize (heap demo_trained) (checkpoint_dict demo_M) =
        FDict [("input_size", FInt 784); ("output_size", FInt 10);
               ("hidden_layers", FIntList [3]); ("state_dict", FDict sd)] ∧
        map fst sd = hidden_keys 0 1 ++ ["output.weight"; "output.bias"] ∧
        Forall (fun '(_, v) => ∃ t, v = FTensor t) sd.
Proof.
  assert (H : Network_new zero_init 784 10 [3] empty_st = (inr demo_M, snd demo_built))
    by (vm_compute; reflexivity).
  split; [exact H|]. exact (C7_checkpoint_layout _ _ _ _ _ _ _ (heap demo_trained) H).
Defined.

(** C7, counterexample: the file written for [Network(784, 10, [3])] has
    no field [hidden_layer_sizes] and no field [parameters]; its
    parameters are under [state_dict], named [hidden_layers.0.weight] and
    not [hidden.0.weight]. *)
Lemma C7_field_names_differ :
  map fst (fields demo_file) = ["input_size"; "output_size"; "hidden_layers"; "state_dict"] ∧
  assoc "hidden_layer_sizes" (fields demo_file) = None ∧
  assoc "parameters" (fields demo_file) = None ∧
  map fst (fields (default (FDict []) (assoc "state_dict" (fields demo_file))))
    = ["hidden_layers.0.weight"; "hidden_layers.0.bias"; "output.weight"; "output.bias"] ∧
  assoc "hidden.0.weight" (fields (default (FDict []) (assoc "state_dict" (fields demo_file))))
    = None.
Proof. vm_compute. repeat split. Qed.

(** C8. The file the save cell writes for a module built by [Network_new]
    names exactly the parameters its recorded [hidden_layers] implies. On
    loading, any file whose [state_dict] lacks a name the recorded sizes
    imply makes [load_checkpoint] raise [RuntimeError] listing it as
    missing, and any file whose [state_dict] has a name they do not imply
    makes it raise [RuntimeError] listing it as unexpected: no module is
    returned in either case. *)
Theorem C8_keys_match_descriptor :
  (∀ init i o hs st0 M st1 h,
     Network_new init i o hs st0 = (inr M, st1) ->
     ∃ sd, serialize h (checkpoint_dict M) =
           FDict [("input_size", FInt 784); ("output_size", FInt 10);
                  ("hidden_layers", FIntList hs); ("state_dict", FDict sd)] ∧
           map fst sd = param_keys (length hs)) ∧
  (∀ init path st kvs i o hs sd k,
     files st !! path = Some (FDict kvs) ->
     assoc "input_size" kvs = Some (FInt i) ->
     assoc "output_size" kvs = Some (FInt o) ->
     assoc "hidden_layers" kvs = Some (FIntList hs) ->
     assoc "state_dict" kvs = Some (FDict sd) ->
     (In k (param_keys (length hs)) -> ¬ In k (map fst sd) ->
        ∃ ks rest st', load_checkpoint init path st
                       = (inl (RuntimeError (MissingKeys ks :: rest)), st') ∧ In k ks) ∧
     (In k (map fst sd) -> ¬ In k (param_keys (length hs)) ->
        ∃ msgs st', load_checkpoint init path st = (inl (RuntimeError msgs), st') ∧
                    ∃ ks, In (UnexpectedKeys ks) msgs ∧ In k ks)).
Proof.
  split.
  - intros init i o hs st0 M st1 h HM.
    destruct (saved_file_layout _ _ _ _ _ _ _ h HM) as (sd & Hf & Hk & _).
    by exists sd.
  - intros init path st kvs i o hs sd k Hf Hi Ho Hh Hs.
    rewrite (load_checkpoint_unfold init path st kvs i o hs sd Hf Hi Ho Hh Hs).
    set (stN := mkSt _ _ _). split.
    + intros Hk Hn.
      destruct (load_state_dict_missing (net_at (next_loc st) i o hs) sd stN k)
        as (ks & rest & st' & HL & Hks); [by rewrite state_dict_keys|exact Hn|].
      exists ks, rest, st'. split; [exact (bind_err _ _ _ _ _ HL)|exact Hks].
    + intros Hk Hn.
      destruct (load_state_dict_unexpected (net_at (next_loc st) i o hs) sd stN k)
        as (msgs & st' & HL & Hks); [exact Hk|by rewrite state_dict_keys|].
      exists msgs, st'. split; [exact (bind_err _ _ _ _ _ HL)|exact Hks].
Qed.

Lemma C8_keys_match_descriptor_witness :
  (∃ ks rest st',
     load_checkpoint zero_init "checkpoint.pth" (file_st odd_file)
     = (inl (RuntimeError (MissingKeys ks :: rest)), st') ∧ In "output.weight" ks) ∧
  (∃ msgs st',
     load_checkpoint zero_init "checkpoint.pth" (file_st odd_file)
     = (inl (RuntimeError msgs), st') ∧ ∃ ks, In (UnexpectedKeys ks) msgs ∧ In "extra" ks).
Proof.
  pose proof (proj2 C8_keys_match_descriptor zero_init "checkpoint.pth" (file_st odd_file)
                (fields odd_file) 784 10 [3] [("extra", FTensor (mkTensor [1] []))])
    as HC.
  split.
  - apply (proj1 (HC "output.weight" eq_refl eq_refl eq_refl eq_refl eq_refl));
      [in_concrete|notin_concrete].
  - apply (proj2 (HC "extra" eq_refl eq_refl eq_refl eq_refl eq_refl));
      [in_concrete|notin_concrete].
Defined.

(** C9. The hidden sizes the save cell records, read off the model as
    [[each.out_features for each in model.hidden_layers]], are the
    hidden sizes the module was constructed with. *)
Theorem C9_recorded_hidden_sizes init i o hs st M st' :
  Network_new init i o hs st = (inr M, st') ->
  checkpoint_dict M =
  MDict [("input_size", MInt 784); ("output_size", MInt 10);
         ("hidden_layers", MIntList hs); ("state_dict", state_dict_obj M)].
Proof.
  intros HM. unfold checkpoint_dict.
  by rewrite (Network_new_out_features _ _ _ _ _ _ _ HM).
Qed.

Lemma C9_recorded_hidden_sizes_witness :
  Network_new zero_init 784 10 [3] empty_st = (inr demo_M, snd demo_built) ∧
  checkpoint_dict demo_M =
  MDict [("input_size", MInt 784); ("output_size", MInt 10);
         ("hidden_layers", MIntList [3]); ("state_dict", state_dict_obj demo_M)].
Proof.
  assert (H : Network_new zero_init 784 10 [3] empty_st = (inr demo_M, snd demo_built))
    by (vm_compute; reflexivity).
  split; [exact H|]. exact (C9_recorded_hidden_sizes _ _ _ _ _ _ _ H).
Defined.

(** C10. A module built by [Network_new init i o hs] names its parameters
    [hidden_layers.<j>.weight], [hidden_layers.<j>.bias] for
    j = 0 .. length hs - 1, then [output.weight] and [output.bias], in this
    order; the file the save cell writes for it has the same names, and
    every module [load_checkpoint] returns from that file has them too. *)
Theorem C10_parameter_names init i o hs st M st' :
  Network_new init i o hs st = (inr M, st') ->
  map fst (state_dict M) = hidden_keys 0 (length hs) ++ ["output.weight"; "output.bias"] ∧
  (∀ h, ∃ sd, serialize h (checkpoint_dict M) =
              FDict [("input_size", FInt 784); ("output_size", FInt 10);
                     ("hidden_layers", FIntList hs); ("state_dict", FDict sd)] ∧
              map fst sd = map fst (state_dict M)) ∧
  (∀ h init' path st1 N st2,
     files st1 !! path = Some (serialize h (checkpoint_dict M)) ->
     load_checkpoint init' path st1 = (inr (PyNetwork N), st2) ->
     map fst (state_dict N) = map fst (state_dict M)).
Proof.
  intros HM. pose proof (Network_new_keys _ _ _ _ _ _ _ HM) as HkM.
  split; [exact HkM|]. split.
  - intros h. destruct (saved_file_layout _ _ _ _ _ _ _ h HM) as (sd & Hf & Hk & _).
    exists sd. split; [exact Hf|]. by rewrite Hk, HkM.
  - intros h init' path st1 N st2 Hf Hl.
    destruct (saved_file_layout _ _ _ _ _ _ _ h HM) as (sd & Hsd & _ & _).
    destruct (load_checkpoint_inv _ _ _ _ _ Hl)
      as (kvs & i' & o' & hs' & sd' & Hf' & _ & _ & Hh & _ & ->).
    rewrite Hf, Hsd in Hf'. injection Hf' as <-. cbn in Hh. injection Hh as <-.
    by rewrite state_dict_keys, HkM.
Qed.

Lemma C10_parameter_names_witness :
  Network_new zero_init 784 10 [3] empty_st = (inr demo_M, snd demo_built) ∧
  map fst (state_dict demo_M) = hidden_keys 0 1 ++ ["output.weight"; "output.bias"] ∧
  hidden_keys 0 1 = ["hidden_layers.0.weight"; "hidden_layers.0.bias"].
Proof.
  assert (H : Network_new zero_init 784 10 [3] empty_st = (inr demo_M, snd demo_built))
    by (vm_compute; reflexivity).
  split; [exact H|]. split; [exact (proj1 (C10_parameter_names _ _ _ _ _ _ _ H))|].
  vm_compute. reflexivity.
Defined.

(* ------------------------------------------------------------------ *)
(** ** Further properties of the notebook's code *)

(** X1. Whatever its outcome (success, [RuntimeError], or [TypeError] on a
    value that is not a dictionary), [load_state_dict] writes no file,
    allocates no location, leaves every tensor that is not a parameter of
    the module as it was, and changes the shape of no tensor. *)
Theorem load_state_dict_changes m sdv st r st' :
  load_state_dict m sdv st = (r, st') ->
  files st' = files st ∧ next_loc st' = next_loc st ∧
  (∀ l, l ∉ map snd (state_dict m) -> heap st' !! l = heap st !! l) ∧
  (∀ l, shape (heap st' !!! l) = shape (heap st !!! l)).
Proof. apply load_state_dict_effects. Qed.

Lemma load_state_dict_changes_witness :
  ∃ r st', load_state_dict demo_M partial_sd demo_trained = (r, st') ∧
  (files st' = files demo_trained ∧ next_loc st' = next_loc demo_trained ∧
   (∀ l, l ∉ map snd (state_dict demo_M) -> heap st' !! l = heap demo_trained !! l) ∧
   (∀ l, shape (heap st' !!! l) = shape (heap demo_trained !!! l))).
Proof.
  assert (H : load_state_dict demo_M partial_sd demo_trained
              = (fst (load_state_dict demo_M partial_sd demo_trained),
                 snd (load_state_dict demo_M partial_sd demo_trained)))
    by (vm_compute; reflexivity).
  eexists _, _. split; [exact H|].
  exact (load_state_dict_changes _ _ _ _ _ H).
Defined.

(** X2. [load_state_dict] on a dictionary [sd] succeeds exactly when every
    parameter's name is a key of [sd] whose value is a tensor of the
    parameter's current shape, and every key of [sd] names a parameter. *)
Theorem load_state_dict_success_iff m sd st :
  (∃ st', load_state_dict m (FDict sd) st = (inr tt, st')) ↔
  (∀ k l, In (k, l) (state_dict m) ->
     ∃ t, assoc k sd = Some (FTensor t) ∧ shape t = shape (heap st !!! l)) ∧
  (∀ k, In k (map fst sd) -> In k (map fst (state_dict m))).
Proof.
  rewrite <- load_state_dict_succeeds.
  destruct (load_state_dict m (FDict sd) st) as [r st']. cbn. split.
  - intros [st'' Heq]. injection Heq as -> _. reflexivity.
  - intros ->. exists st'. reflexivity.
Qed.



(** X4. Lines 237, 261, 289: saving a module's state dict, loading the
    file back and calling [load_state_dict] on the same module succeeds
    ("All keys matched successfully") and leaves the heap exactly as it
    was, for any module whose parameter names are distinct, whose
    parameter locations are distinct and hold tensors. *)
Theorem reload_same_model_restores m st :
  NoDup (map fst (state_dict m)) -> NoDup (map snd (state_dict m)) ->
  (∀ k l, In (k, l) (state_dict m) -> is_Some (heap st !! l)) ->
  ∃ st', reload_same_model m st = (inr tt, st') ∧
    heap st' = heap st ∧ next_loc st' = next_loc st.
Proof.
  intros HndK HndL Hdom. rewrite reload_same_unfold.
  set (sd := map (fun '(k, l) => (k, FTensor (heap st !!! l))) (state_dict m)).
  assert (Hsd : ∀ k l, In (k, l) (state_dict m) -> assoc k sd = Some (FTensor (heap st !!! l))).
  { intros k l Hin. apply assoc_In.
    - unfold sd. by rewrite saved_keys.
    - unfold sd. apply in_map_iff. exists (k, l). split; [reflexivity|exact Hin]. }
  destruct (load_params_ok sd (state_dict m) (heap st) HndL) as (h' & Hl & _ & _).
  { apply Forall_forall. intros [k l] Hin%list_elem_of_In.
    exists (heap st !!! l). split; [by apply Hsd|done]. }
  destruct (load_params_heap sd (state_dict m) (heap st) HndL) as [Hout Hin].
  rewrite Hl in Hout, Hin. cbn [fst] in Hout, Hin.
  unfold load_state_dict. cbn [heap]. rewrite Hl.
  rewrite unexpected_keys_nil by (intros k; unfold sd; by rewrite saved_keys).
  eexists. split; [reflexivity|]. cbn. split; [|done].
  apply map_eq. intros l.
  destruct (decide (l ∈ map snd (state_dict m))) as [Hl'|Hl'].
  - apply list_elem_of_In, in_map_iff in Hl' as [[k l'] [Heq HinP]]. cbn in Heq. subst l'.
    rewrite (Hin k l HinP), (Hsd k l HinP).
    destruct (Hdom k l HinP) as [x Hx]. rewrite Hx. unfold copied.
    unfold lookup_total, map_lookup_total. rewrite Hx. cbn.
    rewrite decide_True by done. by destruct x.
  - by apply Hout.
Qed.

Lemma reload_same_model_restores_witness :
  NoDup (map fst (state_dict demo_M)) ∧ NoDup (map snd (state_dict demo_M)) ∧
  (∀ k l, In (k, l) (state_dict demo_M) -> is_Some (heap demo_trained !! l)) ∧
  ∃ st', reload_same_model demo_M demo_trained = (inr tt, st') ∧
    heap st' = heap demo_trained ∧ next_loc st' = next_loc demo_trained.
Proof.
  assert (H1 : NoDup (map fst (state_dict demo_M)))
    by (apply (bool_decide_unpack _); vm_compute; reflexivity).
  assert (H2 : NoDup (map snd (state_dict demo_M)))
    by (apply (bool_decide_unpack _); vm_compute; reflexivity).
  assert (H3 : ∀ k l, In (k, l) (state_dict demo_M) -> is_Some (heap demo_trained !! l)).
  { intros k l Hin. vm_compute in Hin.
    repeat destruct Hin as [Hin|Hin]; try (injection Hin as <- <-); try contradiction;
      vm_compute; eexists; reflexivity. }
  split; [exact H1|]. split; [exact H2|]. split; [exact H3|].
  exact (reload_same_model_restores demo_M demo_trained H1 H2 H3).
Defined.

(** X5. Lines 237, 261, 321-323 in general: after saving the state dict of
    a module trained from [Network(784, 10, hs)], loading it into a new
    [Network(784, 10, hs')] either succeeds or raises [RuntimeError]; it
    succeeds exactly when [hs' = hs], and then the new module's named
    parameters equal those of the saved module. *)
Theorem reload_into_new_model_outcome init init' hs M hs' st :
  trained_from init' 784 10 hs M (heap st) ->
  ∃ T r st1, reload_into_new_model init M hs' st = (inr (T, r), st1) ∧
    map out_features (hidden_layers T) = hs' ∧
    (r = inr tt ∨ ∃ msgs, r = inl (RuntimeError msgs)) ∧
    (r = inr tt ↔ hs' = hs) ∧
    (r = inr tt -> read_params (heap st1) T = read_params (heap st) M).
Proof.
  intros Htr.
  destruct (reload_core init init' hs M hs' st Htr) as (T & r & st1 & H & HT & A & B & C & _).
  exists T, r, st1. split; [exact H|]. split; [exact (Network_new_out_features _ _ _ _ _ _ _ HT)|].
  auto.
Qed.

Lemma reload_into_new_model_outcome_witness :
  trained_from zero_init 784 10 [3] demo_M (heap demo_trained) ∧
  ∃ T r st1, reload_into_new_model zero_init demo_M [4] demo_trained = (inr (T, r), st1) ∧
    map out_features (hidden_layers T) = [4] ∧
    (r = inr tt ∨ ∃ msgs, r = inl (RuntimeError msgs)) ∧
    (r = inr tt ↔ [4] = [3]) ∧
    (r = inr tt -> read_params (heap st1) T = read_params (heap demo_trained) demo_M).
Proof.
  split; [exact demo_trained_from|].
  exact (reload_into_new_model_outcome zero_init zero_init [3] demo_M [4] demo_trained
           demo_trained_from).
Defined.

(** X6. The notebook's last cells in order: after the failed load into
    [Network(784, 10, [400, 200, 100])] (lines 321-323), the save cell
    (lines 338-344) saves that second module, so [load_checkpoint]
    (line 391) returns a module whose layers map 784 -> 400 -> 200 -> 100
    -> 10 and whose named parameters equal the second module's as they
    stood after the failed load. *)
Theorem notebook_final_load init init' M st :
  trained_from init' 784 10 [512; 256; 128] M (heap st) ->
  ∃ T msgs st1 ck st2 N st3,
    reload_into_new_model init M [400; 200; 100] st
      = (inr (T, inl (RuntimeError msgs)), st1) ∧
    save_checkpoint T st1 = (inr ck, st2) ∧
    load_checkpoint init "checkpoint.pth" st2 = (inr (PyNetwork N), st3) ∧
    map (fun L => (in_features L, out_features L)) (hidden_layers N ++ [output N])
      = [(784, 400); (400, 200); (200, 100); (100, 10)] ∧
    read_params (heap st3) N = read_params (heap st1) T.
Proof.
  intros Htr.
  destruct (reload_core init init' [512; 256; 128] M [400; 200; 100] st Htr)
    as (T & r & st1 & Hrel & _ & Hr & Hiff & _ & HtrT).
  destruct Hr as [->|[msgs ->]].
  { exfalso. assert ([400; 200; 100] = [512; 256; 128]) by (by apply Hiff). discriminate. }
  set (st2 := mkSt (heap st1) (next_loc st1)
                (<["checkpoint.pth" := serialize (heap st1) (checkpoint_dict T)]> (files st1))).
  destruct (load_checkpoint_saved init init [400; 200; 100] T (heap st1) "checkpoint.pth" st2
              HtrT) as (N & st3 & Hload & Hread & HN).
  { unfold st2. cbn [files]. by rewrite lookup_insert_eq. }
  rewrite Network_new_spec in HN. injection HN as HN. subst N.
  exists T, msgs, st1, (checkpoint_dict T), st2, (net_at (next_loc st2) 784 10 [400; 200; 100]), st3.
  split; [exact Hrel|]. split; [reflexivity|]. split; [exact Hload|].
  split; [reflexivity|exact Hread].
Qed.

Lemma notebook_final_load_witness :
  trained_from zero_init 784 10 [512; 256; 128] big_M (heap big_trained) ∧
  ∃ T msgs st1 ck st2 N st3,
    reload_into_new_model zero_init big_M [400; 200; 100] big_trained
      = (inr (T, inl (RuntimeError msgs)), st1) ∧
    save_checkpoint T st1 = (inr ck, st2) ∧
    load_checkpoint zero_init "checkpoint.pth" st2 = (inr (PyNetwork N), st3) ∧
    map (fun L => (in_features L, out_features L)) (hidden_layers N ++ [output N])
      = [(784, 400); (400, 200); (200, 100); (100, 10)] ∧
    read_params (heap st3) N = read_params (heap st1) T.
Proof.
  split; [exact big_trained_from|].
  exact (notebook_final_load zero_init zero_init big_M big_trained big_trained_from).
Defined.

(** X7. Calling [load_checkpoint] twice on a file the save cell wrote gives
    two modules with the saved parameters, stored at disjoint locations:
    the second load leaves the first module's parameters untouched. *)
Theorem load_checkpoint_twice init init' hs M hsave path st :
  trained_from init' 784 10 hs M hsave ->
  files st !! path = Some (serialize hsave (checkpoint_dict M)) ->
  ∃ N1 st1 N2 st2,
    load_checkpoint init path st = (inr (PyNetwork N1), st1) ∧
    load_checkpoint init path st1 = (inr (PyNetwork N2), st2) ∧
    read_params (heap st2) N1 = read_params hsave M ∧
    read_params (heap st2) N2 = read_params hsave M ∧
    (∀ l, In l (map snd (state_dict N1)) -> ¬ In l (map snd (state_dict N2))).
Proof.
  intros Htr Hfile.
  destruct (load_checkpoint_saved init init' hs M hsave path st Htr Hfile)
    as (N1 & st1 & H1 & R1 & _).
  destruct (load_checkpoint_frame _ _ _ _ _ H1) as (F1 & K1 & L1).
  destruct (load_checkpoint_saved init init' hs M hsave path st1 Htr)
    as (N2 & st2 & H2 & R2 & _).
  { by rewrite F1. }
  destruct (load_checkpoint_frame _ _ _ _ _ H2) as (F2 & K2 & L2).
  exists N1, st1, N2, st2. split; [done|]. split; [done|]. split; [|split; [done|]].
  - rewrite <- R1. unfold read_params. apply map_ext_in. intros [k l] Hin. cbn.
    unfold lookup_total, map_lookup_total. rewrite K2; [done|].
    apply (L1 N1 eq_refl l). apply in_map_iff. exists (k, l). split; [reflexivity|exact Hin].
  - intros l Hl1 Hl2. pose proof (L1 N1 eq_refl l Hl1). pose proof (L2 N2 eq_refl l Hl2). lia.
Qed.

Lemma load_checkpoint_twice_witness :
  trained_from zero_init 784 10 [3] demo_M (heap demo_trained) ∧
  files (file_st demo_file) !! "checkpoint.pth"
    = Some (serialize (heap demo_trained) (checkpoint_dict demo_M)) ∧
  ∃ N1 st1 N2 st2,
    load_checkpoint zero_init "checkpoint.pth" (file_st demo_file) = (inr (PyNetwork N1), st1) ∧
    load_checkpoint zero_init "checkpoint.pth" st1 = (inr (PyNetwork N2), st2) ∧
    read_params (heap st2) N1 = read_params (heap demo_trained) demo_M ∧
    read_params (heap st2) N2 = read_params (heap demo_trained) demo_M ∧
    (∀ l, In l (map snd (state_dict N1)) -> ¬ In l (map snd (state_dict N2))).
Proof.
  assert (Hf : files (file_st demo_file) !! "checkpoint.pth"
                 = Some (serialize (heap demo_trained) (checkpoint_dict demo_M)))
    by reflexivity.
  split; [exact demo_trained_from|]. split; [exact Hf|].
  exact (load_checkpoint_twice zero_init zero_init [3] demo_M (heap demo_trained)
           "checkpoint.pth" (file_st demo_file) demo_trained_from Hf).
Defined.

(** X8. Whatever its outcome, [load_checkpoint] writes no file and changes
    no tensor allocated before the call: loading a checkpoint never alters
    another model's parameters. *)
Theorem load_checkpoint_preserves init path st r st' :
  load_checkpoint init path st = (r, st') ->
  files st' = files st ∧ (∀ l, l < next_loc st -> heap st' !! l = heap st !! l).
Proof.
  intros H. destruct (load_checkpoint_frame _ _ _ _ _ H) as (F & K & _). auto.
Qed.

Lemma load_checkpoint_preserves_witness :
  ∃ r st', load_checkpoint zero_init "checkpoint.pth" demo_with_file = (r, st') ∧
  (files st' = files demo_with_file ∧
   (∀ l, l < next_loc demo_with_file -> heap st' !! l = heap demo_with_file !! l)).
Proof.
  assert (H : load_checkpoint zero_init "checkpoint.pth" demo_with_file
              = (fst (load_checkpoint zero_init "checkpoint.pth" demo_with_file),
                 snd (load_checkpoint zero_init "checkpoint.pth" demo_with_file)))
    by (vm_compute; reflexivity).
  eexists _, _. split; [exact H|].
  exact (load_checkpoint_preserves _ _ _ _ _ H).
Defined.
